(** * Telework commute pipeline: a shallow embedding of [Telework.py]

    The development models the decision logic of
    [Template/Esri Python script/Telework.py]:

    - [geocode_addresses]   (WORK/HOME disambiguation of a geocoded pair),
    - [match_work_and_home] (pairing of pooled geocode results),
    - [read_worker_info]    (synthetic record identifiers),
    - [calculate_commute]   (submission and polling of the analysis job),
    - [write_output]        (rows handed to the CSV writer).

    Python dictionaries whose keys are fixed by the code are records with
    one optional field per key that the code reads: a missing key is [None]
    and reading it raises [KeyError], as [d[k]] does.  A pandas row, whose
    keys come from the configuration, is a finite map.  Exceptions are an
    explicit result type; the remote services are a script of responses
    consumed in order, and every request, pause and critical log line is
    recorded in a trace.

    Values have the types the services give them: a [ResultID] and an
    employee number are integers, an address and an address type are text,
    a score is a number.  JSON numbers that the code only copies are
    rationals.  Informational and debug log lines, and the opening of the
    output file, are left out. *)

From Stdlib Require Import QArith.
From stdpp Require Import base numbers list strings gmap.

Local Open Scope Z_scope.

(** ** Exceptions *)

Inductive exn : Type :=
| KeyError (key : string)
| TypeError
| RequestException.

Inductive result (A : Type) : Type :=
| Ok (a : A)
| Raise (e : exn).
Arguments Ok {A} a.
Arguments Raise {A} e.

#[global] Instance result_ret : MRet result := λ A a, Ok a.

#[global] Instance result_bind : MBind result := λ A B k m,
  match m with
  | Ok a => k a
  | Raise e => Raise e
  end.

(** [d[key]] on a dictionary whose entry for [key] is [o]. *)
Definition getitem {A : Type} (key : string) (o : option A) : result A :=
  match o with
  | Some a => Ok a
  | None => Raise (KeyError key)
  end.

(** ** Module constants *)

Definition DEFAULT_BATCH_SIZE : Z := 150.
Definition EMPLOYEE_ADDRESS_TYPE_FIELD : string := "Employee_Address_Type".
Definition WORK_ADDRESS_TYPE : string := "WORK".
Definition HOME_ADDRESS_TYPE : string := "HOME".
Definition HEADER : list string :=
  [ "Employee_Number"; "Commute_Miles"; "Commute_Minutes"; "Work_Latitude";
    "Work_Longitude"; "Home_Latitude"; "Home_Longitude"; "Flagged" ].

(** ** Geocode results *)

(** The ["attributes"] dictionary of a geocode result. *)
Record attributes : Type := Attributes {
  ResultID : option Z;
  Employee_Address_Type : option string
}.

(** One entry of the geocoder's ["locations"] list. *)
Record location : Type := Location {
  l_attributes : option attributes;
  l_address : option string;
  l_score : option Q;
  l_location : option (Q * Q)
}.

(** [l["attributes"]["ResultID"]] *)
Definition get_ResultID (l : location) : result Z :=
  a ← getitem "attributes" (l_attributes l);
  getitem "ResultID" (ResultID a).

(** [l["attributes"][EMPLOYEE_ADDRESS_TYPE_FIELD]] *)
Definition get_address_type (l : location) : result string :=
  a ← getitem "attributes" (l_attributes l);
  getitem EMPLOYEE_ADDRESS_TYPE_FIELD (Employee_Address_Type a).

(** [l["address"]] *)
Definition get_address (l : location) : result string :=
  getitem "address" (l_address l).

(** [l["score"]] *)
Definition get_score (l : location) : result Q :=
  getitem "score" (l_score l).

(** ** [match_work_and_home] *)

(** The four lists the loop appends to. *)
Record match_state : Type := MatchState {
  found_employees : list Z;
  origins : list location;
  destinations : list location;
  flagged_employees : list Z
}.

Definition match_init : match_state := MatchState [] [] [] [].

(** [if employee not in flagged_employees: flagged_employees.append(employee)] *)
Definition flag (employee : Z) (st : match_state) : match_state :=
  if decide (employee ∈ flagged_employees st) then st
  else MatchState (found_employees st) (origins st) (destinations st)
                  (flagged_employees st ++ [employee]).

(** [found_employees.append(employee)] *)
Definition mark_found (employee : Z) (st : match_state) : match_state :=
  MatchState (found_employees st ++ [employee]) (origins st)
             (destinations st) (flagged_employees st).

(** [origins.append(location); destinations.append(matching_location)] *)
Definition append_pair (o d : location) (st : match_state) : match_state :=
  MatchState (found_employees st) (origins st ++ [o])
             (destinations st ++ [d]) (flagged_employees st).

(** The generator handed to [next(..., None)]: the first [l] of the pool with
    the employee's identifier, another address and another address type.
    [and] short-circuits, so a key is read only when the tests before it
    passed; a missing key raises out of the scan. *)
Fixpoint next_match (pool : list location) (employee : Z)
    (address employee_address_type : string) : result (option location) :=
  match pool with
  | [] => Ok None
  | l :: pool' =>
      id ← get_ResultID l;
      if decide (id = employee) then
        a ← get_address l;
        if decide (a ≠ address) then
          t ← get_address_type l;
          if decide (t ≠ employee_address_type) then Ok (Some l)
          else next_match pool' employee address employee_address_type
        else next_match pool' employee address employee_address_type
      else next_match pool' employee address employee_address_type
  end.

(** [x == 0] on a numeric score. *)
Definition is_zero (q : Q) : bool := Qeq_bool q 0%Q.

(** The part of the [try] block after the skip test.  No list is appended to
    before the last key has been read, so an exception leaves the state as
    it was at the start of the iteration. *)
Definition match_body (locations : list location) (location : location)
    (employee : Z) (st : match_state) : result match_state :=
  employee_address_type ← get_address_type location;
  address ← get_address location;
  matching_location ← next_match locations employee address employee_address_type;
  match matching_location with
  | None => Ok (flag employee st)
  | Some matching_location =>
      s ← get_score location;
      if is_zero s then Ok (mark_found employee (flag employee st))
      else
        s' ← get_score matching_location;
        if is_zero s' then Ok (mark_found employee (flag employee st))
        else Ok (mark_found employee (append_pair location matching_location st))
  end.

(** [if employee:] in the handler: an integer is true when it is not 0. *)
Definition truthy (employee : Z) : bool := negb (Z.eqb employee 0).

(** One iteration of [for location in locations]. *)
Definition match_step (locations : list location) (st : match_state)
    (location : location) : match_state :=
  match get_ResultID location with
  | Raise _ => st
  | Ok employee =>
      if decide (employee ∈ found_employees st ∨ employee ∈ flagged_employees st)
      then st
      else
        match match_body locations location employee st with
        | Ok st' => st'
        | Raise _ => if truthy employee then flag employee st else st
        end
  end.

(** The loop, from a given state over a suffix of the pool. *)
Definition match_loop (locations todo : list location) (st : match_state)
    : match_state :=
  fold_left (match_step locations) todo st.

Definition match_work_and_home (locations : list location)
    : list location * list location * list Z :=
  let st := match_loop locations locations match_init in
  (origins st, destinations st, flagged_employees st).

(** ** [geocode_addresses] *)

(** The decoded reply of the geocoder: the ["locations"] entry, when the
    reply has one.  [Raise] is a request that raised. *)
Record geocode_json : Type := GeocodeJson {
  gj_locations : option (list location)
}.

(** [attrs[key] = v] on the two keys the disambiguation writes. *)
Definition set_address_type (t : string) (a : attributes) : attributes :=
  Attributes (ResultID a) (Some t).

Definition set_ResultID (id : Z) (a : attributes) : attributes :=
  Attributes (Some id) (Employee_Address_Type a).

Definition set_attributes (a : attributes) (l : location) : location :=
  Location (Some a) (l_address l) (l_score l) (l_location l).

(** The [location_count == 2] block.  The two attribute dictionaries are
    distinct objects of the decoded reply, updated in place. *)
Definition assign_address_types (first second : location)
    : result (location * location) :=
  first_location ← getitem "attributes" (l_attributes first);
  first_location_id ← getitem "ResultID" (ResultID first_location);
  second_location ← getitem "attributes" (l_attributes second);
  second_location_id ← getitem "ResultID" (ResultID second_location);
  if decide (first_location_id > second_location_id) then
    Ok (set_attributes
          (set_ResultID second_location_id
             (set_address_type HOME_ADDRESS_TYPE first_location)) first,
        set_attributes
          (set_address_type WORK_ADDRESS_TYPE second_location) second)
  else
    Ok (set_attributes
          (set_address_type WORK_ADDRESS_TYPE first_location) first,
        set_attributes
          (set_ResultID first_location_id
             (set_address_type HOME_ADDRESS_TYPE second_location)) second).

(** [None] is the function's [return None]; [Raise] is an exception that
    leaves the function (the [try] only covers the request). *)
Definition geocode_addresses (reply : result geocode_json)
    : result (option (list location)) :=
  match reply with
  | Raise _ => Ok None
  | Ok res_json =>
      match gj_locations res_json with
      | None => Ok None
      | Some locations =>
          if decide (length locations = 0%nat) then Ok None
          else
            match locations with
            | [first; second] =>
                '(first', second') ← assign_address_types first second;
                Ok (Some [first'; second'])
            | _ => Ok (Some locations)
            end
      end
  end.

(** ** [read_worker_info] *)

(** A cell of the roster: a whole number or text. *)
Inductive cell : Type :=
| CInt (z : Z)
| CStr (s : string).

(** [c + 1] *)
Definition add_one (c : cell) : result cell :=
  match c with
  | CInt z => Ok (CInt (z + 1))
  | CStr _ => Raise TypeError
  end.

(** The column names given in the configuration. *)
Record worker_fields : Type := WorkerFields {
  employee_number_field : string;
  work_address_field : string;
  work_city_field : string;
  work_state_field : string;
  work_zip_field : string;
  home_address_field : string;
  home_city_field : string;
  home_state_field : string;
  home_zip_field : string
}.

(** The ["attributes"] of one address record sent to the geocoder. *)
Record address_record : Type := AddressRecord {
  OBJECTID : cell;
  Address : cell;
  City : cell;
  Region : cell;
  Postal : cell
}.

(** [worker[field]] on a row of the data frame. *)
Definition worker_get (worker : gmap string cell) (field : string) : result cell :=
  getitem field (worker !! field).

(** The [try] block of one row: the two records of an employee. *)
Definition worker_records (f : worker_fields) (worker : gmap string cell)
    : result (list address_record) :=
  employee ← worker_get worker (employee_number_field f);
  work_address ← worker_get worker (work_address_field f);
  work_city ← worker_get worker (work_city_field f);
  work_state ← worker_get worker (work_state_field f);
  work_zip ← worker_get worker (work_zip_field f);
  home_address ← worker_get worker (home_address_field f);
  home_city ← worker_get worker (home_city_field f);
  home_state ← worker_get worker (home_state_field f);
  home_zip ← worker_get worker (home_zip_field f);
  home_id ← add_one employee;
  Ok [ AddressRecord employee work_address work_city work_state work_zip;
       AddressRecord home_id home_address home_city home_state home_zip ].

(** One iteration of [for _, worker in worker_info.iterrows()]: a row that
    raises is logged and contributes nothing. *)
Definition worker_step (f : worker_fields)
    (records_list : list (list address_record)) (worker : gmap string cell)
    : list (list address_record) :=
  match worker_records f worker with
  | Ok records => records_list ++ [records]
  | Raise _ => records_list
  end.

Definition read_worker_info (worker_info : list (gmap string cell))
    (f : worker_fields) : list (list address_record) :=
  fold_left (worker_step f) worker_info [].


(** ** [generate_token] and [calculate_commute] *)

(** The function a critical log line comes from. *)
Inductive log_source : Type :=
| InGenerateToken
| InCalculateCommute.

(** What the function does to the outside, in order.  [logger.info] and
    [logger.debug] lines are not recorded. *)
Inductive event : Type :=
| PostGenerateToken (username password : string)
| PostSubmitJob (analysis_url : string) (token : option string)
| GetJobStatus (analysis_url job_id : string) (token : option string)
| GetRoutes (analysis_url job_id routes_url : string) (token : option string)
| Sleep (seconds : Z)
| LogCritical (source : log_source).

(** The ["error"] entry of a token reply. *)
Record token_error : Type := TokenError {
  te_code : option Z;
  te_message : option string
}.

Record token_json : Type := TokenJson {
  tj_error : option token_error;
  tj_token : option string
}.

(** The value is the token, or [None] for the bare [return]; the list is
    what the call adds to the trace. *)
Definition generate_token (username password : string)
    (reply : result token_json) : result (option string) * list event :=
  let post := PostGenerateToken username password in
  match reply with
  | Raise _ => (Ok None, [post; LogCritical InGenerateToken])
  | Ok res_json =>
      match tj_error res_json with
      | Some error =>
          match (statusCode ← getitem "code" (te_code error);
                 getitem "message" (te_message error)) with
          | Ok _ => (Ok None, [post; LogCritical InGenerateToken])
          | Raise e => (Raise e, [post])
          end
      | None =>
          match getitem "token" (tj_token res_json) with
          | Ok t => (Ok (Some t), [post])
          | Raise e => (Raise e, [post])
          end
      end
  end.

Record submit_json : Type := SubmitJson {
  sj_jobId : option string
}.

(** The ["error"] entry of a status reply. *)
Record status_error : Type := StatusError {
  se_code : option Z
}.

(** A status reply: ["jobStatus"], ["results"]["routesLayer"]["paramUrl"]
    and ["error"]. *)
Record status_json : Type := StatusJson {
  jobStatus : option string;
  routes_paramUrl : option string;
  error : option status_error
}.

(** What a run of the function comes to: a returned value ([None] is
    Python's [None]), or a loop that has outlived the script of replies. *)
Inductive outcome (A : Type) : Type :=
| Returned (v : option A)
| StillPolling.
Arguments Returned {A} v.
Arguments StillPolling {A}.

Section calculate_commute.
(** The feature set of the routes reply is handed back as it is. *)
Context {features : Type}.

(** The remote side: the reply to the submission, the replies to the
    status queries in order, the reply to the [n]-th token request, and
    ["value"]["featureSet"]["features"] of the routes reply. *)
Record remote : Type := Remote {
  submit_reply : result submit_json;
  status_replies : list (result status_json);
  token_reply : nat → result token_json;
  routes_reply : result (option features)
}.

Variables username password : string.
Variable R : remote.

(** A critical line, then [return]: the [esriJobFailed] branch, the
    unexpected-error branch and the [except Exception] handler alike. *)
Definition fail (tr : list event) : outcome features * list event :=
  (Returned None, tr ++ [LogCritical InCalculateCommute]).

(** The [while] loop, entered with [job_status] submitted or executing;
    [n] counts the token requests made so far. *)
Fixpoint poll (analysis_url job_id : string)
    (replies : list (result status_json))
    (n : nat) (token : option string) (tr : list event)
    : outcome features * list event :=
  match replies with
  | [] => (StillPolling, tr)
  | reply :: replies' =>
      let tr := tr ++ [GetJobStatus analysis_url job_id token] in
      match reply with
      | Raise _ => fail tr
      | Ok status =>
          match jobStatus status with
          | Some job_status =>
              if decide (job_status = "esriJobSucceeded") then
                match getitem "paramUrl" (routes_paramUrl status) with
                | Raise _ => fail tr
                | Ok routes_url =>
                    let tr := tr ++ [GetRoutes analysis_url job_id routes_url token] in
                    match routes_json ← routes_reply R;
                          getitem "features" routes_json with
                    | Ok fs => (Returned (Some fs), tr)
                    | Raise _ => fail tr
                    end
                end
              else if decide (job_status = "esriJobFailed") then fail tr
              else
                let tr := tr ++ [Sleep 3] in
                if decide (job_status = "esriJobSubmitted"
                           ∨ job_status = "esriJobExecuting")
                then poll analysis_url job_id replies' n token tr
                else (Returned None, tr)
          | None =>
              match error status with
              | Some err =>
                  if decide (se_code err = Some 498) then
                    let '(t, evs) := generate_token username password (token_reply R n) in
                    match t with
                    | Ok token' => poll analysis_url job_id replies' (S n) token' (tr ++ evs ++ [Sleep 3])
                    | Raise _ => fail (tr ++ evs)
                    end
                  else fail tr
              | None => poll analysis_url job_id replies' n token tr
              end
          end
      end
  end.

Definition calculate_commute (analysis_url : string) (token : option string)
    : outcome features * list event :=
  let analysis_url := analysis_url +:+ "ConnectOriginsToDestinations" in
  let tr := [PostSubmitJob analysis_url token] in
  match submit_reply R with
  | Raise _ => fail tr
  | Ok res_json =>
      match sj_jobId res_json with
      | Some job_id => poll analysis_url job_id (status_replies R) 0 token tr
      | None => fail tr
      end
  end.
End calculate_commute.

(** ** [write_output] *)

(** A JSON scalar, also a cell of the CSV.  Numbers are only copied from
    the route to the row, never computed with. *)
Inductive value : Type :=
| VInt (z : Z)
| VNum (q : Q)
| VStr (s : string)
| VBool (b : bool).

(** The ["attributes"] of a route feature of the analysis result. *)
Record route_attributes : Type := RouteAttributes {
  RouteName : value;
  Total_Miles : value;
  Total_Minutes : value;
  From_Employee_Address_Type : value;
  From_Lat : value;
  From_Lon : value;
  To_Lat : value;
  To_Lon : value
}.

(** The body of [for feature in features]. *)
Definition route_row (attributes : route_attributes) : list value :=
  let employee_number := RouteName attributes in
  let total_miles := Total_Miles attributes in
  let total_minutes := Total_Minutes attributes in
  let from_address_type := From_Employee_Address_Type attributes in
  let '(work_lat, work_lon, home_lat, home_lon) :=
    match from_address_type with
    | VStr t =>
        if decide (t = WORK_ADDRESS_TYPE)
        then (From_Lat attributes, From_Lon attributes,
              To_Lat attributes, To_Lon attributes)
        else (To_Lat attributes, To_Lon attributes,
              From_Lat attributes, From_Lon attributes)
    | _ => (To_Lat attributes, To_Lon attributes,
            From_Lat attributes, From_Lon attributes)
    end in
  [ employee_number; total_miles; total_minutes;
    work_lat; work_lon; home_lat; home_lon; VBool false ].

(** The body of [for emp in flagged_employees]. *)
Definition flagged_row (emp : Z) : list value :=
  [ VInt emp; VInt 0; VInt 0; VInt 0; VInt 0; VInt 0; VInt 0; VBool true ].

(** The list [rows] after the two loops. *)
Definition output_rows (features : list route_attributes)
    (flagged_employees : list Z) : list (list value) :=
  let rows := fold_left (λ rows feature, rows ++ [route_row feature]) features [] in
  fold_left (λ rows emp, rows ++ [flagged_row emp]) flagged_employees rows.

(** The rows handed to the CSV writer: [writerow(header)], then
    [writerows(rows)]. *)
Definition write_output (features : list route_attributes)
    (flagged_employees : list Z) (header : list string) : list (list value) :=
  (VStr <$> header) :: output_rows features flagged_employees.

(** ** [locations_to_feature_collection] *)

(** One entry of ["featureSet"]["features"]: the ["geometry"] (x, then y)
    and the four ["attributes"]. *)
Record point_feature : Type := PointFeature {
  geometry : Q * Q;
  employee_number : Z;
  feature_address_type : string;
  Lat : Q;
  Lon : Q
}.

Record layer_definition : Type := LayerDefinition {
  ld_geometryType : string;
  ld_fields : list (string * string)
}.

Record feature_set : Type := FeatureSet {
  fs_geometryType : string;
  fs_wkid : Z;
  fs_features : list point_feature
}.

Record feature_collection : Type := FeatureCollection {
  layerDefinition : layer_definition;
  featureSet : feature_set
}.

(** The body of [for location in locations]; the point of a location is
    its (x, y).  The keys are read in the order of the source: the point,
    then the identifier, then the address type. *)
Definition location_feature (location : location) : result point_feature :=
  '(lon, lat) ← getitem "location" (l_location location);
  id ← get_ResultID location;
  t ← get_address_type location;
  Ok (PointFeature (lon, lat) id t lat lon).

(** One iteration: nothing catches a missing key, so the first one ends the
    function. *)
Definition feature_step (features : result (list point_feature))
    (location : location) : result (list point_feature) :=
  fs ← features;
  f ← location_feature location;
  Ok (fs ++ [f]).

Definition locations_to_feature_collection (locations : list location)
    : result feature_collection :=
  features ← fold_left feature_step locations (Ok []);
  Ok (FeatureCollection
        (LayerDefinition "esriGeometryPoint"
           [ ("employee_number", "esriFieldTypeOID");
             (EMPLOYEE_ADDRESS_TYPE_FIELD, "esriFieldTypeString");
             ("Lat", "esriFieldTypeDouble");
             ("Lon", "esriFieldTypeDouble") ])
        (FeatureSet "esriGeometryPoint" 4326 features)).

(** ** [get_suggested_batch_size] *)

Record geocoder_json : Type := GeocoderJson {
  SuggestedBatchSize : option Z
}.

Definition get_suggested_batch_size (reply : result geocoder_json) : Z :=
  match reply with
  | Ok res_json =>
      match SuggestedBatchSize res_json with
      | Some n => n
      | None => DEFAULT_BATCH_SIZE
      end
  | Raise _ => DEFAULT_BATCH_SIZE
  end.

(** ** [get_analysis_url] *)

Record analysis_service : Type := AnalysisService {
  as_url : option string
}.

Record helper_services : Type := HelperServices {
  hs_analysis : option analysis_service
}.

Record portal_json : Type := PortalJson {
  pj_helperServices : option helper_services
}.

(** [None] is the value of the branches that only log. *)
Definition get_analysis_url (reply : result portal_json) : option string :=
  match reply with
  | Ok res_json =>
      match pj_helperServices res_json with
      | Some services =>
          match hs_analysis services with
          | Some analysis =>
              match as_url analysis with
              | Some url => Some (url +:+ "/")
              | None => None
              end
          | None => None
          end
      | None => None
      end
  | Raise _ => None
  end.

(** ** [get_travel_mode] *)

(** The ["attributes"] of a travel mode. *)
Record mode_attributes : Type := ModeAttributes {
  ma_Name : option string;
  ma_TravelMode : option string
}.

Record mode_feature : Type := ModeFeature {
  mf_attributes : option mode_attributes
}.

(** One entry of ["results"]: ["paramName"] and ["value"]["features"]. *)
Record gp_result : Type := GpResult {
  paramName : option string;
  value_features : option (list mode_feature)
}.

Record travel_json : Type := TravelJson {
  results : option (list gp_result)
}.

(** The first generator: the first result named ["supportedTravelModes"]. *)
Fixpoint supported_travel_modes (rs : list gp_result) : result (option gp_result) :=
  match rs with
  | [] => Ok None
  | r :: rs' =>
      name ← getitem "paramName" (paramName r);
      if decide (name = "supportedTravelModes") then Ok (Some r)
      else supported_travel_modes rs'
  end.

(** The second generator: the ["TravelMode"] of the first mode with the
    name asked for. *)
Fixpoint named_travel_mode (fs : list mode_feature) (travel_mode_name : string)
    : result (option string) :=
  match fs with
  | [] => Ok None
  | f :: fs' =>
      a ← getitem "attributes" (mf_attributes f);
      name ← getitem "Name" (ma_Name a);
      if decide (name = travel_mode_name) then
        tm ← getitem "TravelMode" (ma_TravelMode a);
        Ok (Some tm)
      else named_travel_mode fs' travel_mode_name
  end.

(** The [try] only covers the request. *)
Definition get_travel_mode (travel_mode_name : string)
    (reply : result travel_json) : result (option string) :=
  match reply with
  | Raise _ => Ok None
  | Ok res_json =>
      rs ← getitem "results" (results res_json);
      travel_modes ← supported_travel_modes rs;
      match travel_modes with
      | None => Ok None
      | Some travel_modes =>
          fs ← getitem "features" (value_features travel_modes);
          named_travel_mode fs travel_mode_name
      end
  end.

(** ** [read_config] *)

(** The configuration is a dictionary of texts. *)
Definition read_config (file : result (gmap string string))
    : option (gmap string string) :=
  match file with
  | Ok jsonConfig => Some jsonConfig
  | Raise _ => None
  end.

(** ** [main] *)

(** Everything [main] reads from outside: the decoded [config.json], the
    data frame of each CSV path, the key ring, and the replies of the
    services.  The geocoder is asked once per employee; [geocode_reply i] is
    its reply to request number [i].  The password is the text it formats to
    in the token request. *)
Record world : Type := World {
  config_file : result (gmap string string);
  csv_file : string → result (list (gmap string cell));
  keyring_password : string → string → string;
  login_reply : result token_json;
  geocode_reply : nat → result geocode_json;
  portal_reply : result portal_json;
  travel_reply : result travel_json;
  analysis : @remote (list route_attributes)
}.

(** The keys [main] reads from the configuration, in order. *)
Record config : Type := Config {
  log_level : string;
  profile : string;
  cfg_username : string;
  worker_info_csv : string;
  cfg_fields : worker_fields;
  csv_out : string
}.

(** The [try] block of [main]: a missing key is a [KeyError], which the
    block catches. *)
Definition config_values_of (c : gmap string string) : result config :=
  log_level ← getitem "log_level" (c !! "log_level");
  profile ← getitem "profile" (c !! "profile");
  username ← getitem "username" (c !! "username");
  worker_info_csv ← getitem "worker_info_csv" (c !! "worker_info_csv");
  employee_number_field ← getitem "employee_number_field" (c !! "employee_number_field");
  work_address_field ← getitem "work_address_field" (c !! "work_address_field");
  work_city_field ← getitem "work_city_field" (c !! "work_city_field");
  work_state_field ← getitem "work_state_field" (c !! "work_state_field");
  work_zip_field ← getitem "work_zip_field" (c !! "work_zip_field");
  home_address_field ← getitem "home_address_field" (c !! "home_address_field");
  home_city_field ← getitem "home_city_field" (c !! "home_city_field");
  home_state_field ← getitem "home_state_field" (c !! "home_state_field");
  home_zip_field ← getitem "home_zip_field" (c !! "home_zip_field");
  csv_out ← getitem "csv_out" (c !! "csv_out");
  Ok (Config log_level profile username worker_info_csv
        (WorkerFields employee_number_field work_address_field work_city_field
           work_state_field work_zip_field home_address_field home_city_field
           home_state_field home_zip_field)
        csv_out).

(** [for records in records_list: locations.extend(geocode_addresses(...))],
    from request number [i]: extending a list by [None] is a [TypeError]. *)
Fixpoint geocode_all (geocode_reply : nat → result geocode_json)
    (records_list : list (list address_record)) (i : nat)
    (locations : list location) : result (list location) :=
  match records_list with
  | [] => Ok locations
  | _ :: records_list' =>
      geocoded ← geocode_addresses (geocode_reply i);
      match geocoded with
      | None => Raise TypeError
      | Some ls => geocode_all geocode_reply records_list' (S i) (locations ++ ls)
      end
  end.

(** What is left of [main] once the locations are pooled. *)
Definition main_from_locations (w : world) (c : config) (password : string)
    (token : option string) (locations : list location)
    : result (outcome (string * list (list value))) :=
  let '(origins, destinations, flagged_employees) :=
    match_work_and_home locations in
  origin_fc ← locations_to_feature_collection origins;
  dest_fc ← locations_to_feature_collection destinations;
  match get_analysis_url (portal_reply w) with
  | None => Ok (Returned None)
  | Some analysis_url =>
      travel_mode ← get_travel_mode "Driving Distance" (travel_reply w);
      match travel_mode with
      | None => Ok (Returned None)
      | Some travel_mode =>
          if decide (travel_mode = "") then Ok (Returned None)
          else
            match (calculate_commute (cfg_username c) password (analysis w)
                     analysis_url token).1 with
            | StillPolling => Ok StillPolling
            | Returned None => Ok (Returned None)
            | Returned (Some []) => Ok (Returned None)
            | Returned (Some features) =>
                Ok (Returned (Some (csv_out c,
                      write_output features flagged_employees HEADER)))
            end
      end
  end.

(** [Returned None] is a run that ends without writing; [Returned (Some
    (file, rows))] is a run that hands [rows] to the writer of [file];
    [Raise] is an exception that leaves [main]. *)
Definition main (w : world) : result (outcome (string * list (list value))) :=
  match read_config (config_file w) with
  | None => Ok (Returned None)
  | Some config_values =>
      if decide (config_values = ∅) then Ok (Returned None)
      else
        match config_values_of config_values with
        | Raise _ => Ok (Returned None)
        | Ok c =>
            worker_info ← csv_file w (worker_info_csv c);
            match read_worker_info worker_info (cfg_fields c) with
            | [] => Ok (Returned None)
            | records_list =>
                let password := keyring_password w (profile c) (cfg_username c) in
                token ← (generate_token (cfg_username c) password (login_reply w)).1;
                locations ← geocode_all (geocode_reply w) records_list 0 [];
                match locations with
                | [] => Ok (Returned None)
                | _ => main_from_locations w c password token locations
                end
            end
        end
  end.

(** ** [Logger] *)

(** The numbers of the five levels in the [logging] module. *)
Definition DEBUG : Z := 10.
Definition INFO : Z := 20.
Definition WARN : Z := 30.
Definition ERROR : Z := 40.
Definition CRITICAL : Z := 50.

Section Logger.
(** [str.upper]. *)
Variable upper : string → string.

(** [Logger.setLevel]: the new level of the underlying logger. *)
Definition setLevel (level : string) (current : Z) : Z :=
  if decide (upper level = "DEBUG") then DEBUG
  else if decide (upper level = "INFO") then INFO
  else if decide (upper level = "WARN") then WARN
  else if decide (upper level = "ERROR") then ERROR
  else if decide (upper level = "CRITICAL") then CRITICAL
  else current.

(** The test of [debug], [info], [warn], [error] and [critical]: the
    message is printed and logged when the number of its level is at least
    the logger's level. *)
Definition emits (severity current : Z) : bool := bool_decide (current ≤ severity).

(** [Logger.formatMessage]; a missing exception is [None]. *)
Definition formatMessage (message : string) (exception : option string) : string :=
  match exception with
  | Some e => message +:+ String (Ascii.ascii_of_nat 10) e
  | None => message
  end.
End Logger.

(** ** Sample data *)

(** A geocode result with every key present. *)
Definition tagged (id : Z) (address_type address : string) (score : Q) : location :=
  Location (Some (Attributes (Some id) (Some address_type)))
           (Some address) (Some score) (Some (0%Q, 0%Q)).

(** A geocode result that went through no disambiguation (its request did
    not come back with exactly two candidates): no address type. *)
Definition untagged (id : Z) (address : string) (score : Q) : location :=
  Location (Some (Attributes (Some id) None))
           (Some address) (Some score) (Some (0%Q, 0%Q)).

(** The column names of the sample roster. *)
Definition sample_fields : worker_fields :=
  WorkerFields "Employee_Number" "Work_Address" "Work_City" "Work_State"
               "Work_Zip" "Home_Address" "Home_City" "Home_State" "Home_Zip".

(** A roster row with every column present. *)
Definition sample_worker (employee : Z) : gmap string cell :=
  list_to_map
    [ ("Employee_Number", CInt employee);
      ("Work_Address", CStr "1 Main St"); ("Work_City", CStr "Sacramento");
      ("Work_State", CStr "CA"); ("Work_Zip", CInt 95814);
      ("Home_Address", CStr "12 Elm St"); ("Home_City", CStr "Davis");
      ("Home_State", CStr "CA"); ("Home_Zip", CInt 95616) ].

(** A configuration with the fourteen keys and the sample column names. *)
Definition sample_config : gmap string string :=
  list_to_map
    [ ("log_level", "info"); ("profile", "agol"); ("username", "user");
      ("worker_info_csv", "workers.csv");
      ("employee_number_field", "Employee_Number");
      ("work_address_field", "Work_Address"); ("work_city_field", "Work_City");
      ("work_state_field", "Work_State"); ("work_zip_field", "Work_Zip");
      ("home_address_field", "Home_Address"); ("home_city_field", "Home_City");
      ("home_state_field", "Home_State"); ("home_zip_field", "Home_Zip");
      ("csv_out", "out.csv") ].

(** A route of employee 1, reported from the work end. *)
Definition sample_route : route_attributes :=
  RouteAttributes (VInt 1) (VNum 12.5%Q) (VNum 21%Q) (VStr "WORK")
    (VNum 38.6%Q) (VNum (-121.5)%Q) (VNum 38.5%Q) (VNum (-121.7)%Q).

(** A world with one employee in which every service answers; the geocoder
    answers every request with [geocoded]. *)
Definition sample_world (geocoded : result geocode_json) : world :=
  World (Ok sample_config)
        (λ _, Ok [sample_worker 1])
        (λ _ _, "secret")
        (Ok (TokenJson None (Some "t0")))
        (λ _, geocoded)
        (Ok (PortalJson (Some (HelperServices (Some (AnalysisService
               (Some "https://analysis.example/arcgis/rest/services/tasks/GPServer")))))))
        (Ok (TravelJson (Some
               [ GpResult (Some "supportedTravelModes")
                   (Some [ ModeFeature (Some (ModeAttributes
                             (Some "Walking Time") (Some "{walk}")));
                           ModeFeature (Some (ModeAttributes
                             (Some "Driving Distance") (Some "{drive}"))) ]) ])))
        (Remote (Ok (SubmitJson (Some "j1")))
                [ Ok (StatusJson (Some "esriJobExecuting") None None);
                  Ok (StatusJson (Some "esriJobSucceeded") (Some "routes") None) ]
                (λ _, Raise RequestException)
                (Ok (Some [sample_route]))).

(** The geocoder's reply for employee 1: the home candidate first. *)
Definition sample_geocoded : result geocode_json :=
  Ok (GeocodeJson (Some [ untagged 2 "12 Elm St" 90%Q;
                          untagged 1 "1 Main St" 100%Q ])).

(** ** Specification vocabulary *)

(** The identifiers that can be read off a list of locations. *)
Definition employee_ids (ls : list location) : list Z :=
  omap (λ l, match get_ResultID l with Ok e => Some e | Raise _ => None end) ls.

(** [m] passes the three tests of the scan started for [l]. *)
Definition counterpart (l m : location) : Prop :=
  ∃ e t t' a a',
    get_ResultID l = Ok e ∧ get_ResultID m = Ok e ∧
    get_address_type l = Ok t ∧ get_address_type m = Ok t' ∧ t' ≠ t ∧
    get_address l = Ok a ∧ get_address m = Ok a' ∧ a' ≠ a.

Definition nonzero_scores (l m : location) : Prop :=
  ∃ s s', get_score l = Ok s ∧ get_score m = Ok s' ∧
          is_zero s = false ∧ is_zero s' = false.

(** The score test as the code evaluates it: the counterpart's score is
    read only when the first score is not 0. *)
Definition zero_scored (l m : location) : Prop :=
  (∃ s, get_score l = Ok s ∧ is_zero s = true) ∨
  (∃ s s', get_score l = Ok s ∧ is_zero s = false ∧
           get_score m = Ok s' ∧ is_zero s' = true).

(** What the loop has checked of a pair before it appends it. *)
Definition paired (o d : location) : Prop :=
  counterpart o d ∧ nonzero_scores o d.

(** Employee [e] has, in the pool, a result with a counterpart and a zero
    score on one side. *)
Definition zero_score_pair (pool : list location) (e : Z) : Prop :=
  ∃ l m, l ∈ pool ∧ m ∈ pool ∧ get_ResultID l = Ok e ∧
         counterpart l m ∧ zero_scored l m.

(** The iteration on [l] raises inside the [try] after the identifier [e]
    has been read. *)
Definition step_raises (pool : list location) (st : match_state)
    (l : location) (e : Z) : Prop :=
  get_ResultID l = Ok e ∧
  (e ∉ found_employees st) ∧ (e ∉ flagged_employees st) ∧
  ∃ x, match_body pool l e st = Raise x.


(** The credentials of the token requests of a trace, in order. *)
Definition token_requests (tr : list event) : list (string * string) :=
  omap (λ ev, match ev with
              | PostGenerateToken u p => Some (u, p)
              | _ => None
              end) tr.

(** The job and the token of the status queries of a trace, in order. *)
Definition status_queries (tr : list event) : list (string * option string) :=
  omap (λ ev, match ev with
              | GetJobStatus _ job_id token => Some (job_id, token)
              | _ => None
              end) tr.

(** The critical log lines of a trace, in order. *)
Definition critical_lines (tr : list event) : list log_source :=
  omap (λ ev, match ev with LogCritical src => Some src | _ => None end) tr.

(** The scan started for [o] over [pool] stops at [d]. *)
Definition scan_finds (pool : list location) (o d : location) : Prop :=
  ∃ e a t, get_ResultID o = Ok e ∧ get_address o = Ok a ∧
           get_address_type o = Ok t ∧
           next_match pool e a t = Ok (Some d).

(** The invariant of the loop of [match_work_and_home] over a pool. *)
Record match_inv (pool : list location) (st : match_state) : Prop := MatchInv {
  inv_paired : Forall2 paired (origins st) (destinations st);
  inv_matched : ∀ e, e ∈ employee_ids (origins st) →
                  e ∈ found_employees st ∧ e ∉ flagged_employees st;
  inv_found : ∀ e, e ∈ found_employees st →
                e ∈ employee_ids (origins st) ∨
                (e ∈ flagged_employees st ∧ zero_score_pair pool e);
  inv_nodup : NoDup (employee_ids (origins st));
  inv_origins : Forall (λ l, l ∈ pool) (origins st);
  inv_destinations : Forall (λ l, l ∈ pool) (destinations st)
}.

(** What the loop keeps of its two lists of identifiers. *)
Record ids_inv (pool : list location) (st : match_state) : Prop := IdsInv {
  ids_found_nodup : NoDup (found_employees st);
  ids_flagged_nodup : NoDup (flagged_employees st);
  ids_found_pool : ∀ e, e ∈ found_employees st → e ∈ employee_ids pool;
  ids_flagged_pool : ∀ e, e ∈ flagged_employees st → e ∈ employee_ids pool
}.

(** The pool in which each pair's first result is followed by its second:
    the order in which the per-employee geocode replies are pooled. *)
Definition interleave (pairs : list (location * location)) : list location :=
  pairs ≫= λ p, [p.1; p.2].

(** The nine columns [read_worker_info] reads from a row, in the order in
    which it reads them. *)
Definition columns (f : worker_fields) : list string :=
  [ employee_number_field f; work_address_field f; work_city_field f;
    work_state_field f; work_zip_field f; home_address_field f;
    home_city_field f; home_state_field f; home_zip_field f ].

(** [records] is the request of a row: the work record with the employee
    number and the four work columns, the home record with the employee
    number plus 1 and the four home columns. *)
Definition built_from (f : worker_fields) (worker : gmap string cell)
    (records : list address_record) : Prop :=
  ∃ e wa wc ws wz ha hc hs hz,
    worker !! employee_number_field f = Some (CInt e) ∧
    worker !! work_address_field f = Some wa ∧
    worker !! work_city_field f = Some wc ∧
    worker !! work_state_field f = Some ws ∧
    worker !! work_zip_field f = Some wz ∧
    worker !! home_address_field f = Some ha ∧
    worker !! home_city_field f = Some hc ∧
    worker !! home_state_field f = Some hs ∧
    worker !! home_zip_field f = Some hz ∧
    records = [ AddressRecord (CInt e) wa wc ws wz;
                AddressRecord (CInt (e + 1)) ha hc hs hz ].

(** A status reply that keeps the loop going: the job is submitted or
    executing. *)
Definition in_progress (reply : result status_json) : Prop :=
  ∃ s p e, reply = Ok (StatusJson (Some s) p e) ∧
           (s = "esriJobSubmitted" ∨ s = "esriJobExecuting").

(** The part of the trace a run of [k] such replies leaves: a status query
    with the current token and a pause of 3, [k] times. *)
Definition waiting (analysis_url job_id : string) (token : option string)
    (k : nat) : list event :=
  mjoin (replicate k [GetJobStatus analysis_url job_id token; Sleep 3]).

(** An event as a run with these credentials on this job may produce it. *)
Definition event_ok (username password analysis_url job_id : string)
    (ev : event) : Prop :=
  match ev with
  | PostGenerateToken u p => u = username ∧ p = password
  | PostSubmitJob url _ => url = analysis_url
  | GetJobStatus url job _ => url = analysis_url ∧ job = job_id
  | GetRoutes url job _ _ => url = analysis_url ∧ job = job_id
  | Sleep seconds => seconds = 3
  | LogCritical _ => True
  end.

(** The same route reported from the other end: the From and To coordinates
    change places and the From address type becomes the other one. *)
Definition reverse_route (r : route_attributes) : route_attributes :=
  RouteAttributes (RouteName r) (Total_Miles r) (Total_Minutes r)
    (match From_Employee_Address_Type r with
     | VStr t => if decide (t = WORK_ADDRESS_TYPE)
                 then VStr HOME_ADDRESS_TYPE else VStr WORK_ADDRESS_TYPE
     | v => v
     end)
    (To_Lat r) (To_Lon r) (From_Lat r) (From_Lon r).

(** A reply of the geocoder with two candidates that have readable
    identifiers, the smaller of which is [id], different addresses, and
    scores other than 0. *)
Definition valid_candidates (reply : result geocode_json) (id : Z) : Prop :=
  ∃ first second id1 id2 a1 a2 s1 s2,
    reply = Ok (GeocodeJson (Some [first; second])) ∧
    get_ResultID first = Ok id1 ∧ get_ResultID second = Ok id2 ∧
    id = Z.min id1 id2 ∧
    l_address first = Some a1 ∧ l_address second = Some a2 ∧ a1 ≠ a2 ∧
    l_score first = Some s1 ∧ l_score second = Some s2 ∧
    is_zero s1 = false ∧ is_zero s2 = false.

(** * Properties of [match_work_and_home] *)

Lemma next_match_some pool e a t m :
  next_match pool e a t = Ok (Some m) →
  m ∈ pool ∧ get_ResultID m = Ok e ∧
  ∃ a' t', get_address m = Ok a' ∧ a' ≠ a ∧
           get_address_type m = Ok t' ∧ t' ≠ t.
Proof.
  induction pool as [|l pool IH]; cbn [next_match]; [discriminate|].
  intros H.
  destruct (get_ResultID l) as [id|] eqn:Eid; cbn [mbind result_bind] in H;
    [|discriminate].
  assert (Hrec : next_match pool e a t = Ok (Some m) →
                 m ∈ l :: pool ∧ get_ResultID m = Ok e ∧
                 ∃ a' t', get_address m = Ok a' ∧ a' ≠ a ∧
                          get_address_type m = Ok t' ∧ t' ≠ t).
  { intros Hn. destruct (IH Hn) as (? & ? & ?). split; [by right|done]. }
  destruct (decide (id = e)) as [->|]; [|by apply Hrec].
  destruct (get_address l) as [a'|] eqn:Ea; cbn [mbind result_bind] in H;
    [|discriminate].
  destruct (decide (a' ≠ a)); [|by apply Hrec].
  destruct (get_address_type l) as [t'|] eqn:Et; cbn [mbind result_bind] in H;
    [|discriminate].
  destruct (decide (t' ≠ t)); [|by apply Hrec].
  injection H as ->. split; [by left|]. split; [done|]. by exists a', t'.
Qed.

(** The three ways the body of an iteration can end without raising. *)
Lemma match_body_cases pool l e st st' :
  get_ResultID l = Ok e →
  match_body pool l e st = Ok st' →
  st' = flag e st ∨
  (∃ m, st' = mark_found e (flag e st) ∧ m ∈ pool ∧
        counterpart l m ∧ zero_scored l m) ∨
  (∃ m, st' = mark_found e (append_pair l m st) ∧ m ∈ pool ∧ paired l m).
Proof.
  intros Hid. unfold match_body.
  destruct (get_address_type l) as [t|] eqn:Et; cbn [mbind result_bind];
    [|discriminate].
  destruct (get_address l) as [a|] eqn:Ea; cbn [mbind result_bind];
    [|discriminate].
  destruct (next_match pool e a t) as [[m|]|] eqn:En; cbn [mbind result_bind];
    [| intros [= <-]; by left | discriminate].
  apply next_match_some in En as (Hin & Hidm & a' & t' & Ha' & Hna & Ht' & Hnt).
  assert (Hc : counterpart l m) by (by exists e, t, t', a, a').
  destruct (get_score l) as [s|] eqn:Es; cbn [mbind result_bind];
    [|discriminate].
  destruct (is_zero s) eqn:Hs.
  { intros [= <-]. right; left. exists m. repeat split; try done.
    left. by exists s. }
  destruct (get_score m) as [s'|] eqn:Es'; cbn [mbind result_bind];
    [|discriminate].
  destruct (is_zero s') eqn:Hs'; intros [= <-]; right; [left|right];
    exists m; repeat split; try done.
  - right. by exists s, s'.
  - by exists s, s'.
Qed.

(** The ways one iteration can change the state. *)
Lemma match_step_cases pool st l :
  match_step pool st l = st ∨
  ∃ e, get_ResultID l = Ok e ∧
       (e ∉ found_employees st) ∧ (e ∉ flagged_employees st) ∧
       (match_step pool st l = flag e st ∨
        (∃ m, match_step pool st l = mark_found e (flag e st) ∧ m ∈ pool ∧
              counterpart l m ∧ zero_scored l m) ∨
        (∃ m, match_step pool st l = mark_found e (append_pair l m st) ∧
              m ∈ pool ∧ paired l m)).
Proof.
  unfold match_step.
  destruct (get_ResultID l) as [e|] eqn:Eid; [|by left].
  destruct (decide _) as [|Hno]; [by left|].
  assert (Hcases : ∀ P : Prop, P → (e ∉ found_employees st) ∧
                     (e ∉ flagged_employees st) ∧ P) by (intros; tauto).
  destruct (match_body pool l e st) as [st'|] eqn:Eb.
  - right. exists e. split; [done|]. apply Hcases.
    by apply (match_body_cases pool l e st st').
  - destruct (truthy e); [|by left].
    right. exists e. split; [done|]. apply Hcases. by left.
Qed.

Lemma employee_ids_snoc ls l e :
  get_ResultID l = Ok e → employee_ids (ls ++ [l]) = employee_ids ls ++ [e].
Proof. intros H. unfold employee_ids. rewrite omap_app. cbn. by rewrite H. Qed.

Lemma flagged_flag e st x :
  x ∈ flagged_employees (flag e st) ↔ x ∈ flagged_employees st ∨ x = e.
Proof.
  unfold flag. destruct (decide _) as [Hin|]; cbn.
  - split; [by left|]. intros [ | -> ]; done.
  - by rewrite elem_of_app, list_elem_of_singleton.
Qed.

Lemma flag_origins e st : origins (flag e st) = origins st.
Proof. unfold flag. by destruct (decide _). Qed.

Lemma flag_destinations e st : destinations (flag e st) = destinations st.
Proof. unfold flag. by destruct (decide _). Qed.

Lemma flag_found e st : found_employees (flag e st) = found_employees st.
Proof. unfold flag. by destruct (decide _). Qed.

Lemma match_inv_init pool : match_inv pool match_init.
Proof.
  split; cbn; [constructor| | |constructor..];
    intros e He; by apply elem_of_nil in He.
Qed.

Lemma match_step_inv pool st l :
  l ∈ pool → match_inv pool st → match_inv pool (match_step pool st l).
Proof.
  intros Hl [Hp Hm Hf Hn Ho Hd].
  destruct (match_step_cases pool st l)
    as [ -> | (e & Hid & Hnf & Hng &
               [ -> | [ (m & -> & Hin & Hc & Hz) | (m & -> & Hin & Hpair)]])];
    [done| | |].
  - split; rewrite ?flag_origins, ?flag_destinations, ?flag_found; try done.
    + intros x Hx. destruct (Hm x Hx) as [Hxf Hxg].
      split; [done|]. rewrite flagged_flag. intros [ | -> ]; done.
    + intros x Hx. destruct (Hf x Hx) as [|[? ?]]; [by left|right].
      split; [|done]. apply flagged_flag. by left.
  - split; cbn; rewrite ?flag_origins, ?flag_destinations, ?flag_found;
      try done.
    + intros x Hx. destruct (Hm x Hx) as [Hxf Hxg].
      split; [apply elem_of_app; by left|].
      rewrite flagged_flag. intros [ | -> ]; done.
    + intros x [Hx|Hx%list_elem_of_singleton]%elem_of_app.
      * destruct (Hf x Hx) as [|[? ?]]; [by left|right].
        split; [|done]. apply flagged_flag. by left.
      * subst x. right. split; [apply flagged_flag; by right|].
        by exists l, m.
  - split; cbn.
    + apply Forall2_app; [done|]. constructor; [done|constructor].
    + rewrite (employee_ids_snoc _ _ e Hid). intros x Hx.
      apply elem_of_app in Hx as [Hx|Hx%list_elem_of_singleton].
      * destruct (Hm x Hx). split; [apply elem_of_app; by left|done].
      * subst x. split; [|done]. apply elem_of_app. right. by left.
    + rewrite (employee_ids_snoc _ _ e Hid).
      intros x [Hx|Hx%list_elem_of_singleton]%elem_of_app.
      * destruct (Hf x Hx) as [|[? ?]]; [|by right].
        left. apply elem_of_app. by left.
      * subst x. left. apply elem_of_app. right. by left.
    + rewrite (employee_ids_snoc _ _ e Hid). apply NoDup_app.
      split; [done|]. split; [|apply NoDup_singleton].
      intros x Hx ->%list_elem_of_singleton. by destruct (Hm e Hx).
    + apply Forall_app. split; [done|]. constructor; [done|constructor].
    + apply Forall_app. split; [done|]. constructor; [done|constructor].
Qed.

Lemma match_loop_inv pool todo st :
  Forall (λ l, l ∈ pool) todo → match_inv pool st →
  match_inv pool (match_loop pool todo st).
Proof.
  unfold match_loop. revert st.
  induction todo as [|l todo IH]; intros st Htodo Hinv; [done|].
  apply Forall_cons in Htodo as [Hl Htodo]. cbn.
  apply IH; [done|]. by apply match_step_inv.
Qed.

Lemma match_final_inv locations :
  match_inv locations (match_loop locations locations match_init).
Proof.
  apply match_loop_inv; [|apply match_inv_init].
  by apply Forall_forall.
Qed.

(** C1.  For every list of geocode results, the origins and destinations
    returned by [match_work_and_home] have the same length, and at every
    index the origin and the destination carry the same [ResultID]. *)
Theorem match_work_and_home_aligned (locations : list location) :
  let '(origins, destinations, _) := match_work_and_home locations in
  length origins = length destinations ∧
  ∀ (i : nat) (o d : location),
    origins !! i = Some o → destinations !! i = Some d →
    ∃ employee, get_ResultID o = Ok employee ∧ get_ResultID d = Ok employee.
Proof.
  unfold match_work_and_home. cbv zeta.
  destruct (match_final_inv locations) as [Hp _ _ _ _ _].
  split; [by eapply Forall2_length|].
  intros i o d Ho Hd.
  destruct (Forall2_lookup_lr _ _ _ _ _ _ Hp Ho Hd)
    as [(e & t & t' & a & a' & He & He' & _) _].
  by exists e.
Qed.

(** Counterexample to C4 as stated.  Employee 7 has a WORK and a HOME
    result with different addresses, and the first has score 0: the loop
    appends 7 to the flagged list and then to the found list. *)
Lemma found_and_flagged_overlap :
  let locations := [ tagged 7 "WORK" "1 Main St" 0%Q;
                     tagged 7 "HOME" "12 Elm St" 100%Q ] in
  let st := match_loop locations locations match_init in
  7 ∈ found_employees st ∧ 7 ∈ flagged_employees st.
Proof. vm_compute. split; constructor. Qed.

(** C4, amended.  For every list of geocode results: no identifier is both
    among the matched employees (those of the origins) and in the flagged
    list; an identifier that is both in the found list and in the flagged
    list belongs to an employee with a counterpart and a zero score; and an
    iteration on a result whose identifier is already found or flagged
    leaves the four lists as they are. *)
Theorem matched_and_flagged_disjoint (locations : list location) :
  let st := match_loop locations locations match_init in
  (∀ e, e ∈ employee_ids (origins st) → e ∉ flagged_employees st) ∧
  (∀ e, e ∈ found_employees st → e ∈ flagged_employees st →
        zero_score_pair locations e) ∧
  (∀ st' l e, get_ResultID l = Ok e →
        e ∈ found_employees st' ∨ e ∈ flagged_employees st' →
        match_step locations st' l = st').
Proof.
  cbv zeta. destruct (match_final_inv locations) as [_ Hm Hf _ _ _].
  split; [|split].
  - intros e He. by destruct (Hm e He).
  - intros e He Hg. destruct (Hf e He) as [Ho|[_ Hz]]; [|done].
    by destruct (Hm e Ho).
  - intros st' l e Hid Hin. unfold match_step. rewrite Hid.
    by destruct (decide _).
Qed.



(** *** Failures inside one iteration *)

Lemma match_step_flagged_mono pool st l x :
  x ∈ flagged_employees st → x ∈ flagged_employees (match_step pool st l).
Proof.
  intros Hx.
  destruct (match_step_cases pool st l)
    as [ -> | (e & _ & _ & _ &
               [ -> | [ (m & -> & _) | (m & -> & _)]])]; cbn; try done;
    apply flagged_flag; by left.
Qed.

Lemma match_loop_flagged_mono pool todo st x :
  x ∈ flagged_employees st → x ∈ flagged_employees (match_loop pool todo st).
Proof.
  unfold match_loop. revert st.
  induction todo as [|l todo IH]; intros st Hx; [done|].
  cbn. apply IH. by apply match_step_flagged_mono.
Qed.

(** A failure on one result never stops the loop ([match_work_and_home] is
    a total function), and the employee is flagged for good when the
    identifier that was read is not 0. *)
Lemma failed_employee_flagged pool pre l post e :
  step_raises pool (match_loop pool pre match_init) l e →
  e ≠ 0 →
  e ∈ flagged_employees (match_loop pool (pre ++ l :: post) match_init).
Proof.
  intros (Hid & Hnf & Hng & x & Hx) He.
  unfold match_loop in *. rewrite fold_left_app. cbn [fold_left].
  set (st := fold_left (match_step pool) pre match_init) in *.
  apply (match_loop_flagged_mono pool post).
  unfold match_step. rewrite Hid. destruct (decide _) as [|_]; [tauto|].
  rewrite Hx. unfold truthy.
  destruct (Z.eqb_spec e 0) as [|_]; [done|]. cbn.
  apply flagged_flag. by right.
Qed.

(** C7, at the failing input.  The only result of employee 0 has no address
    type: its identifier is read, the lookup of the address type raises, and
    the handler's [if employee:] takes 0 for an identifier that was never
    read.  The employee is in neither list of the result. *)
Theorem zero_employee_failure_not_flagged :
  let l := untagged 0 "1 Main St" 100%Q in
  step_raises [l] match_init l 0 ∧
  match_work_and_home [l] = ([], [], []).
Proof.
  cbv zeta. split; [|by vm_compute].
  split; [by vm_compute|]. split; [by apply not_elem_of_nil|].
  split; [by apply not_elem_of_nil|].
  exists (KeyError EMPLOYEE_ADDRESS_TYPE_FIELD). by vm_compute.
Qed.

(** *** Running the matcher on its own output *)

Lemma employee_ids_cons l ls e :
  get_ResultID l = Ok e → employee_ids (l :: ls) = e :: employee_ids ls.
Proof. intros H. unfold employee_ids. cbn. by rewrite H. Qed.

Lemma employee_ids_app ls ks :
  employee_ids (ls ++ ks) = employee_ids ls ++ employee_ids ks.
Proof. apply omap_app. Qed.

Lemma paired_ids O D :
  Forall2 paired O D →
  Forall2 (λ l e, get_ResultID l = Ok e) O (employee_ids O) ∧
  Forall2 (λ l e, get_ResultID l = Ok e) D (employee_ids O).
Proof.
  induction 1 as [|o d O D [(e & t & t' & a & a' & Ho & Hd & _) _] _ [IHO IHD]];
    [by split; constructor|].
  rewrite (employee_ids_cons o O e Ho). split; by constructor.
Qed.

Lemma next_match_skip xs es rest e a t :
  Forall2 (λ l e, get_ResultID l = Ok e) xs es → e ∉ es →
  next_match (xs ++ rest) e a t = next_match rest e a t.
Proof.
  induction 1 as [|x id xs es Hx _ IH]; intros He; [done|].
  apply not_elem_of_cons in He as [Hne Hes].
  cbn [app next_match]. rewrite Hx. cbn [mbind result_bind].
  destruct (decide (id = e)) as [->|]; [done|]. by apply IH.
Qed.

Lemma next_match_self o rest e a t :
  get_ResultID o = Ok e → get_address o = Ok a →
  next_match (o :: rest) e a t = next_match rest e a t.
Proof.
  intros Ho Ha. cbn [next_match]. rewrite Ho. cbn [mbind result_bind].
  destruct (decide (e = e)); [|done]. rewrite Ha. cbn [mbind result_bind].
  by destruct (decide (a ≠ a)).
Qed.

Lemma next_match_hit d rest e a t a' t' :
  get_ResultID d = Ok e → get_address d = Ok a' → a' ≠ a →
  get_address_type d = Ok t' → t' ≠ t →
  next_match (d :: rest) e a t = Ok (Some d).
Proof.
  intros Hd Ha Hna Ht Hnt. cbn [next_match]. rewrite Hd.
  cbn [mbind result_bind]. destruct (decide (e = e)); [|done].
  rewrite Ha. cbn [mbind result_bind]. destruct (decide (a' ≠ a)); [|done].
  rewrite Ht. cbn [mbind result_bind]. by destruct (decide (t' ≠ t)).
Qed.

(** In the pool made of the origins followed by the destinations, the scan
    started for an origin stops at its destination. *)
Lemma scan_finds_own_output Opre Dpre O D :
  Forall2 paired Opre Dpre → Forall2 paired O D →
  NoDup (employee_ids (Opre ++ O)) →
  Forall2 (λ o d, paired o d ∧ scan_finds ((Opre ++ O) ++ (Dpre ++ D)) o d) O D.
Proof.
  intros Hpre HOD. revert Opre Dpre Hpre.
  induction HOD as [|o d O D Hod HOD IH]; intros Opre Dpre Hpre Hnd;
    [constructor|].
  constructor.
  - split; [done|].
    destruct Hod as [(e & t & t' & a & a' & Ho & Hd & Ht & Ht' & Hnt & Ha & Ha' & Hna) _].
    exists e, a, t. repeat split; try done.
    destruct (paired_ids _ _ Hpre) as [HidO HidD].
    destruct (paired_ids _ _ HOD) as [HidO' _].
    rewrite employee_ids_app, (employee_ids_cons o O e Ho) in Hnd.
    apply NoDup_app in Hnd as (_ & Hdisj & [HeO _]%NoDup_cons).
    assert (HePre : e ∉ employee_ids Opre).
    { intros Hin. apply (Hdisj e Hin). by left. }
    rewrite <- !app_assoc.
    rewrite (next_match_skip _ _ _ _ _ _ HidO HePre).
    cbn [app]. rewrite (next_match_self _ _ _ _ _ Ho Ha).
    rewrite (next_match_skip _ _ _ _ _ _ HidO' HeO).
    rewrite (next_match_skip _ _ _ _ _ _ HidD HePre).
    by apply (next_match_hit d D e a t a' t').
  - specialize (IH (Opre ++ [o]) (Dpre ++ [d])).
    rewrite <- !(app_assoc _ [_]) in IH. cbn [app] in IH.
    apply IH; [|done].
    apply Forall2_app; [done|]. constructor; [done|constructor].
Qed.

Lemma match_step_rematch pool st o d e :
  paired o d → scan_finds pool o d → get_ResultID o = Ok e →
  e ∉ found_employees st → e ∉ flagged_employees st →
  match_step pool st o = mark_found e (append_pair o d st).
Proof.
  intros [_ (s & s' & Hs & Hs' & Hz & Hz')] (e' & a & t & Ho & Ha & Ht & Hn)
         He Hnf Hng.
  assert (e' = e) as -> by congruence.
  unfold match_step. rewrite He. destruct (decide _) as [|_]; [tauto|].
  unfold match_body. rewrite Ht. cbn [mbind result_bind].
  rewrite Ha. cbn [mbind result_bind]. rewrite Hn. cbn [mbind result_bind].
  rewrite Hs. cbn [mbind result_bind]. rewrite Hz.
  rewrite Hs'. cbn [mbind result_bind]. by rewrite Hz'.
Qed.

Lemma rerun_origins pool O D st :
  Forall2 (λ o d, paired o d ∧ scan_finds pool o d) O D →
  NoDup (employee_ids O) →
  (∀ e, e ∈ employee_ids O →
        (e ∉ found_employees st) ∧ (e ∉ flagged_employees st)) →
  fold_left (match_step pool) O st =
  MatchState (found_employees st ++ employee_ids O) (origins st ++ O)
             (destinations st ++ D) (flagged_employees st).
Proof.
  intros H. revert st.
  induction H as [|o d O D [Hp Hs] _ IH]; intros st Hnd Hfresh.
  { cbn. rewrite !app_nil_r. by destruct st. }
  destruct Hp as [Hc Hz]. pose proof Hc as (e & t & t' & a & a' & Ho & _).
  rewrite (employee_ids_cons o O e Ho) in *.
  apply NoDup_cons in Hnd as [HeO Hnd].
  destruct (Hfresh e) as [Hnf Hng]; [by left|].
  cbn [fold_left].
  rewrite (match_step_rematch pool st o d e); [|done..].
  rewrite IH; [|done|].
  - cbn. by rewrite <- !app_assoc.
  - intros x Hx. cbn. destruct (Hfresh x) as [Hxf Hxg]; [by right|].
    split; [|done]. intros [Hin|Hin%list_elem_of_singleton]%elem_of_app;
      [done|]. by subst x.
Qed.

Lemma rerun_destinations pool D st :
  Forall (λ d, ∃ e, get_ResultID d = Ok e ∧ e ∈ found_employees st) D →
  fold_left (match_step pool) D st = st.
Proof.
  induction 1 as [|d D (e & Hd & He) _ IH]; [done|].
  cbn [fold_left].
  assert (match_step pool st d = st) as ->; [|done].
  unfold match_step. rewrite Hd. destruct (decide _) as [|Hno]; [done|].
  tauto.
Qed.

(** C9.  Handing [match_work_and_home] the origins followed by the
    destinations of one of its own results gives the same origins and the
    same destinations again, and an empty flagged list.  (The employees of
    the origins are pairwise distinct by the loop invariant.) *)
Theorem match_work_and_home_rerun (locations : list location) :
  let '(origins, destinations, _) := match_work_and_home locations in
  NoDup (employee_ids origins) ∧
  match_work_and_home (origins ++ destinations) = (origins, destinations, []).
Proof.
  unfold match_work_and_home. cbv zeta.
  destruct (match_final_inv locations) as [Hp _ _ Hn _ _].
  set (O := origins _) in *. set (D := destinations _) in *.
  split; [done|].
  pose proof (scan_finds_own_output [] [] O D
                (List.Forall2_nil paired) Hp Hn) as Hs.
  cbn [app] in Hs.
  unfold match_loop. rewrite fold_left_app.
  rewrite (rerun_origins _ O D match_init Hs Hn).
  2:{ intros e _. cbn. split; apply not_elem_of_nil. }
  cbn [found_employees origins destinations flagged_employees match_init app].
  rewrite rerun_destinations; [done|].
  cbn [found_employees].
  destruct (paired_ids _ _ Hp) as [_ HidD].
  clear -HidD. induction HidD as [|d e D es Hd _ IH]; constructor.
  - exists e. split; [done|]. by left.
  - eapply Forall_impl; [exact IH|].
    intros x (e' & ? & ?). exists e'. split; [done|]. by right.
Qed.

(** * Properties of [geocode_addresses] *)

(** C3.  For every pair of geocode results whose identifiers can be read,
    [geocode_addresses] returns the two results in the order they came, each
    with the address, score and point it came with.  The result that came
    with the smaller identifier (the first one when the two are equal) is
    tagged WORK and keeps its identifier; the other result is tagged HOME
    and its identifier is overwritten with that smaller identifier.  So one
    result is WORK, the other HOME, never both the same. *)
Theorem disambiguation_work_home (first second : location) (id1 id2 : Z) :
  get_ResultID first = Ok id1 → get_ResultID second = Ok id2 →
  ∃ first' second',
    geocode_addresses (Ok (GeocodeJson (Some [first; second])))
      = Ok (Some [first'; second']) ∧
    (l_address first' = l_address first ∧ l_score first' = l_score first ∧
     l_location first' = l_location first) ∧
    (l_address second' = l_address second ∧ l_score second' = l_score second ∧
     l_location second' = l_location second) ∧
    WORK_ADDRESS_TYPE ≠ HOME_ADDRESS_TYPE ∧
    (id1 ≤ id2 →
       get_address_type first' = Ok WORK_ADDRESS_TYPE ∧
       get_ResultID first' = Ok id1 ∧
       get_address_type second' = Ok HOME_ADDRESS_TYPE ∧
       get_ResultID second' = Ok id1) ∧
    (id2 < id1 →
       get_address_type second' = Ok WORK_ADDRESS_TYPE ∧
       get_ResultID second' = Ok id2 ∧
       get_address_type first' = Ok HOME_ADDRESS_TYPE ∧
       get_ResultID first' = Ok id2) ∧
    get_ResultID first' = Ok (Z.min id1 id2) ∧
    get_ResultID second' = Ok (Z.min id1 id2).
Proof.
  unfold get_ResultID. intros H1 H2.
  destruct (l_attributes first) as [a1|] eqn:E1; [|discriminate].
  destruct (l_attributes second) as [a2|] eqn:E2; [|discriminate].
  cbn [mbind result_bind getitem] in H1, H2.
  destruct (ResultID a1) as [i1|] eqn:R1; [|discriminate].
  destruct (ResultID a2) as [i2|] eqn:R2; [|discriminate].
  injection H1 as ->. injection H2 as ->.
  unfold geocode_addresses, assign_address_types.
  cbn [gj_locations length]. destruct (decide (2%nat = 0%nat)); [done|].
  rewrite E1, E2. cbn [mbind result_bind getitem].
  rewrite R1, R2. cbn [mbind result_bind getitem].
  destruct (decide (id1 > id2)) as [Hgt|Hle]; cbn [mbind result_bind];
    eexists _, _; (split; [reflexivity|]); cbn;
    (split; [done|]); (split; [done|]); (split; [done|]).
  - rewrite R2. cbn. rewrite Z.min_r by lia.
    split; [intros; lia|]. done.
  - rewrite R1. cbn. rewrite Z.min_l by lia.
    split; [done|]. split; [intros; lia|]. done.
Qed.

(** C3 at the pair of the specification, the candidate 101 first: the
    second candidate, which came with 100, is the WORK result. *)
Lemma disambiguation_work_home_witness :
  ∃ first' second',
    geocode_addresses (Ok (GeocodeJson (Some
      [untagged 101 "12 Elm St" 100%Q; untagged 100 "1 Main St" 100%Q])))
      = Ok (Some [first'; second']) ∧
    (l_address first' = Some "12 Elm St" ∧ l_score first' = Some 100%Q ∧
     l_location first' = Some (0%Q, 0%Q)) ∧
    (l_address second' = Some "1 Main St" ∧ l_score second' = Some 100%Q ∧
     l_location second' = Some (0%Q, 0%Q)) ∧
    WORK_ADDRESS_TYPE ≠ HOME_ADDRESS_TYPE ∧
    (101 ≤ 100 →
       get_address_type first' = Ok WORK_ADDRESS_TYPE ∧
       get_ResultID first' = Ok 101 ∧
       get_address_type second' = Ok HOME_ADDRESS_TYPE ∧
       get_ResultID second' = Ok 101) ∧
    (100 < 101 →
       get_address_type second' = Ok WORK_ADDRESS_TYPE ∧
       get_ResultID second' = Ok 100 ∧
       get_address_type first' = Ok HOME_ADDRESS_TYPE ∧
       get_ResultID first' = Ok 100) ∧
    get_ResultID first' = Ok (Z.min 101 100) ∧
    get_ResultID second' = Ok (Z.min 101 100).
Proof.
  apply (disambiguation_work_home
           (untagged 101 "12 Elm St" 100%Q) (untagged 100 "1 Main St" 100%Q)
           101 100); reflexivity.
Defined.

(** * Properties of [read_worker_info] *)



Lemma read_worker_info_omap worker_info f :
  read_worker_info worker_info f =
  omap (λ worker, match worker_records f worker with
                  | Ok records => Some records
                  | Raise _ => None
                  end) worker_info.
Proof.
  unfold read_worker_info.
  rewrite <- (app_nil_l (omap _ _)). generalize (@nil (list address_record)).
  induction worker_info as [|worker rows IH]; intros acc; simpl.
  { by rewrite app_nil_r. }
  rewrite IH. unfold worker_step.
  destruct (worker_records f worker); [|done].
  by rewrite <- app_assoc.
Qed.





(** * Properties of [calculate_commute] *)

(** C2.  The status query answers [esriJobExecuting] twice, then an error
    with code 498, then [esriJobSucceeded]: the run asks for a token exactly
    once, with the credentials it was given, makes the fourth status query
    on the same job with the new token, fetches the routes with it and
    returns their features; no critical line is logged. *)
Theorem calculate_commute_token_refresh {features : Type} (fs : features)
    (username password analysis_url job_id new_token routes_url : string)
    (token : option string)
    (p1 p2 p3 : option string) (e1 e2 e4 : option status_error)
    (later : nat → result token_json) :
  let R := Remote
    (Ok (SubmitJson (Some job_id)))
    [ Ok (StatusJson (Some "esriJobExecuting") p1 e1);
      Ok (StatusJson (Some "esriJobExecuting") p2 e2);
      Ok (StatusJson None p3 (Some (StatusError (Some 498))));
      Ok (StatusJson (Some "esriJobSucceeded") (Some routes_url) e4) ]
    (λ n, match n with
          | O => Ok (TokenJson None (Some new_token))
          | S n' => later n'
          end)
    (Ok (Some fs)) in
  let url := analysis_url +:+ "ConnectOriginsToDestinations" in
  ∃ tr,
    calculate_commute username password R analysis_url token
      = (Returned (Some fs), tr) ∧
    token_requests tr = [(username, password)] ∧
    status_queries tr = [ (job_id, token); (job_id, token); (job_id, token);
                          (job_id, Some new_token) ] ∧
    critical_lines tr = [] ∧
    tr = [ PostSubmitJob url token;
           GetJobStatus url job_id token; Sleep 3;
           GetJobStatus url job_id token; Sleep 3;
           GetJobStatus url job_id token;
           PostGenerateToken username password; Sleep 3;
           GetJobStatus url job_id (Some new_token);
           GetRoutes url job_id routes_url (Some new_token) ].
Proof.
  cbv zeta. eexists. split.
  - unfold calculate_commute. cbn [submit_reply sj_jobId status_replies].
    cbn [poll jobStatus error se_code routes_paramUrl token_reply routes_reply].
    reflexivity.
  - repeat split; reflexivity.
Qed.

Lemma generate_token_none username password reply :
  (generate_token username password reply).1 = Ok None →
  generate_token username password reply =
  (Ok None, [PostGenerateToken username password; LogCritical InGenerateToken]).
Proof.
  unfold generate_token.
  destruct reply as [[[[code message]|] tok]|]; cbn; try done.
  - destruct code, message; cbn; done.
  - destruct tok; cbn; done.
Qed.

(** The loop only ever adds to the trace. *)
Lemma poll_trace_prefix {features : Type} username password
    (R : @remote features) analysis_url job_id replies n token tr :
  tr `prefix_of` (poll username password R analysis_url job_id replies n token tr).2.
Proof.
  revert n token tr.
  induction replies as [|reply replies IH]; intros n token tr; cbn [poll];
    [done|].
  assert (Hstep : ∀ evs n' token',
    tr `prefix_of` (poll username password R analysis_url job_id replies
                      n' token' (tr ++ evs)).2).
  { intros evs n' token'. etrans; [|apply IH]. by apply prefix_app_r. }
  assert (Hfail : ∀ evs, tr `prefix_of` (fail (features:=features) (tr ++ evs)).2).
  { intros evs. unfold fail. cbn. rewrite <- app_assoc. by apply prefix_app_r. }
  destruct reply as [status|]; [|apply Hfail].
  destruct (jobStatus status) as [job_status|].
  - destruct (decide (job_status = "esriJobSucceeded")).
    + destruct (getitem "paramUrl" (routes_paramUrl status)); [|apply Hfail].
      destruct (routes_reply R ≫= getitem "features").
      * cbn. rewrite <- app_assoc. by apply prefix_app_r.
      * rewrite <- app_assoc. apply Hfail.
    + destruct (decide (job_status = "esriJobFailed")); [apply Hfail|].
      destruct (decide _).
      * rewrite <- app_assoc. apply Hstep.
      * cbn. rewrite <- app_assoc. by apply prefix_app_r.
  - destruct (error status) as [err|]; [|apply Hstep].
    destruct (decide (se_code err = Some 498)); [|apply Hfail].
    destruct (generate_token username password (token_reply R n)) as [[t|] evs].
    + rewrite <- (app_assoc tr). apply Hstep.
    + rewrite <- (app_assoc tr). apply Hfail.
Qed.

(** An iteration starts with the status query, made with the current token. *)
Lemma poll_first_request {features : Type} username password
    (R : @remote features) analysis_url job_id reply replies n token tr :
  (tr ++ [GetJobStatus analysis_url job_id token]) `prefix_of`
  (poll username password R analysis_url job_id (reply :: replies) n token tr).2.
Proof.
  cbn [poll]. set (tr' := tr ++ _).
  assert (Hfail : ∀ evs, tr' `prefix_of` (fail (features:=features) (tr' ++ evs)).2).
  { intros evs. unfold fail. cbn. rewrite <- app_assoc. by apply prefix_app_r. }
  assert (Hfail0 : tr' `prefix_of` (fail (features:=features) tr').2).
  { specialize (Hfail []). by rewrite app_nil_r in Hfail. }
  assert (Hstep : ∀ evs n' token',
    tr' `prefix_of` (poll username password R analysis_url job_id replies
                       n' token' (tr' ++ evs)).2).
  { intros evs n' token'. etrans; [|apply poll_trace_prefix].
    by apply prefix_app_r. }
  destruct reply as [status|]; [|apply Hfail0].
  destruct (jobStatus status) as [job_status|].
  - destruct (decide (job_status = "esriJobSucceeded")).
    + destruct (getitem "paramUrl" (routes_paramUrl status)); [|apply Hfail0].
      destruct (routes_reply R ≫= getitem "features").
      * cbn. by apply prefix_app_r.
      * apply Hfail.
    + destruct (decide (job_status = "esriJobFailed")); [apply Hfail0|].
      destruct (decide _); [apply Hstep|].
      cbn. by apply prefix_app_r.
  - destruct (error status) as [err|]; [|apply poll_trace_prefix].
    destruct (decide (se_code err = Some 498)); [|apply Hfail0].
    destruct (generate_token username password (token_reply R n))
      as [[t|] evs]; [apply Hstep|apply Hfail].
Qed.

(** C10.  When the status query answers an error with code 498 and the token
    request that follows gives no token, the loop goes on from the next
    reply with the token [None], after a pause of 3: nothing is returned at
    that step and [calculate_commute] logs no critical line of its own.  If
    a further reply is there, the next request is the status query with the
    token [None]. *)
Theorem token_failure_keeps_polling {features : Type}
    (username password analysis_url job_id : string) (R : @remote features)
    (p : option string) (rest : list (result status_json))
    (n : nat) (token : option string) (tr : list event) :
  (generate_token username password (token_reply R n)).1 = Ok None →
  let expired := Ok (StatusJson None p (Some (StatusError (Some 498)))) in
  let tr' := tr ++ [ GetJobStatus analysis_url job_id token;
                     PostGenerateToken username password;
                     LogCritical InGenerateToken; Sleep 3 ] in
  poll username password R analysis_url job_id (expired :: rest) n token tr =
  poll username password R analysis_url job_id rest (S n) None tr' ∧
  (rest ≠ [] →
   (tr' ++ [GetJobStatus analysis_url job_id None]) `prefix_of`
   (poll username password R analysis_url job_id (expired :: rest) n token tr).2).
Proof.
  intros Hnone. cbv zeta.
  assert (Heq : poll username password R analysis_url job_id
                  (Ok (StatusJson None p (Some (StatusError (Some 498)))) :: rest)
                  n token tr =
                poll username password R analysis_url job_id rest (S n) None
                  (tr ++ [ GetJobStatus analysis_url job_id token;
                           PostGenerateToken username password;
                           LogCritical InGenerateToken; Sleep 3 ])).
  { cbn [poll jobStatus error se_code]. destruct (decide _) as [_|]; [|done].
    rewrite (generate_token_none _ _ _ Hnone).
    by rewrite <- app_assoc. }
  split; [exact Heq|].
  intros Hrest. rewrite Heq.
  destruct rest as [|next rest]; [done|]. apply poll_first_request.
Qed.

(** C10 with a token provider that cannot be reached. *)
Lemma token_failure_keeps_polling_witness :
  let R := @Remote (list route_attributes) (Ok (SubmitJson (Some "j1"))) []
             (λ _, Raise RequestException) (Ok (Some [])) in
  let expired := Ok (StatusJson None None (Some (StatusError (Some 498)))) in
  let done := [Ok (StatusJson (Some "esriJobSucceeded") (Some "routes") None)] in
  let tr' := [ GetJobStatus "url" "j1" (Some "t0");
               PostGenerateToken "user" "secret";
               LogCritical InGenerateToken; Sleep 3 ] in
  (generate_token "user" "secret" (token_reply R 0)).1 = Ok None ∧
  poll "user" "secret" R "url" "j1" (expired :: done) 0 (Some "t0") [] =
  poll "user" "secret" R "url" "j1" done 1 None tr' ∧
  (done ≠ [] →
   (tr' ++ [GetJobStatus "url" "j1" None]) `prefix_of`
   (poll "user" "secret" R "url" "j1" (expired :: done) 0 (Some "t0") []).2).
Proof.
  cbv zeta. split; [reflexivity|].
  apply (token_failure_keeps_polling
           (features:=list route_attributes) "user" "secret" "url" "j1").
  reflexivity.
Defined.

(** * Properties of [write_output] *)

Lemma fold_left_append {A B : Type} (g : A → B) (xs : list A) (acc : list B) :
  fold_left (λ rows x, rows ++ [g x]) xs acc = acc ++ (g <$> xs).
Proof.
  revert acc. induction xs as [|x xs IH]; intros acc; cbn.
  - by rewrite app_nil_r.
  - by rewrite IH, <- app_assoc.
Qed.

Lemma output_rows_eq features flagged :
  output_rows features flagged =
  (route_row <$> features) ++ (flagged_row <$> flagged).
Proof. unfold output_rows. by rewrite !fold_left_append. Qed.

(** C6.  The rows handed to the writer after the header are one row per
    route feature, in the order of the features, followed by one row per
    flagged employee, in the order of the flagged list.  A route's row takes
    the work coordinates from the From side when the From address type is
    WORK and from the To side otherwise, and ends with [False]; a flagged
    employee's row is the identifier, six zeros and [True]. *)
Theorem write_output_rows (features : list route_attributes)
    (flagged_employees : list Z) (header : list string) :
  ∃ rows,
    write_output features flagged_employees header = (VStr <$> header) :: rows ∧
    length rows = (length features + length flagged_employees)%nat ∧
    (∀ (i : nat) (r : route_attributes), features !! i = Some r →
       (From_Employee_Address_Type r = VStr WORK_ADDRESS_TYPE →
        rows !! i = Some
          [ RouteName r; Total_Miles r; Total_Minutes r;
            From_Lat r; From_Lon r; To_Lat r; To_Lon r; VBool false ]) ∧
       (From_Employee_Address_Type r ≠ VStr WORK_ADDRESS_TYPE →
        rows !! i = Some
          [ RouteName r; Total_Miles r; Total_Minutes r;
            To_Lat r; To_Lon r; From_Lat r; From_Lon r; VBool false ])) ∧
    (∀ (j : nat) (emp : Z), flagged_employees !! j = Some emp →
       rows !! (length features + j)%nat = Some
         [ VInt emp; VInt 0; VInt 0; VInt 0; VInt 0; VInt 0; VInt 0; VBool true ]).
Proof.
  exists (output_rows features flagged_employees).
  split; [done|]. rewrite output_rows_eq.
  split; [by rewrite length_app, !length_fmap|]. split.
  - intros i r Hr. rewrite lookup_app_l.
    2:{ rewrite length_fmap. by eapply lookup_lt_Some. }
    rewrite list_lookup_fmap, Hr. cbn [fmap option_fmap option_map].
    unfold route_row. split.
    + intros ->. by destruct (decide _).
    + intros Hne. destruct (From_Employee_Address_Type r) as [| |t|]; try done.
      destruct (decide (t = WORK_ADDRESS_TYPE)) as [->|]; done.
  - intros j emp Hj.
    rewrite lookup_app_r; rewrite length_fmap; [|lia].
    replace (length features + j - length features)%nat with j by lia.
    by rewrite list_lookup_fmap, Hj.
Qed.

(** * Further properties of [match_work_and_home] *)

Lemma elem_of_employee_ids ls e :
  e ∈ employee_ids ls ↔ ∃ l, l ∈ ls ∧ get_ResultID l = Ok e.
Proof.
  unfold employee_ids. rewrite list_elem_of_omap. split.
  - intros (l & Hl & Hid). exists l. split; [done|].
    destruct (get_ResultID l); [|done]. by injection Hid as ->.
  - intros (l & Hl & Hid). exists l. split; [done|]. by rewrite Hid.
Qed.

Lemma match_step_found_mono pool st l x :
  x ∈ found_employees st → x ∈ found_employees (match_step pool st l).
Proof.
  intros Hx.
  destruct (match_step_cases pool st l)
    as [ -> | (e & _ & _ & _ &
               [ -> | [ (m & -> & _) | (m & -> & _)]])]; cbn;
    rewrite ?flag_found; try done; apply elem_of_app; by left.
Qed.

Lemma match_loop_found_mono pool todo st x :
  x ∈ found_employees st → x ∈ found_employees (match_loop pool todo st).
Proof.
  unfold match_loop. revert st.
  induction todo as [|l todo IH]; intros st Hx; [done|].
  cbn. apply IH. by apply match_step_found_mono.
Qed.

Lemma match_step_ids_inv pool st l :
  l ∈ pool → ids_inv pool st → ids_inv pool (match_step pool st l).
Proof.
  intros Hl [Hnf Hng Hpf Hpg].
  assert (Hflag : ∀ e, get_ResultID l = Ok e → e ∉ flagged_employees st →
            NoDup (flagged_employees (flag e st)) ∧
            ∀ x, x ∈ flagged_employees (flag e st) → x ∈ employee_ids pool).
  { intros e Hid Hne. split.
    - unfold flag. destruct (decide _); [done|]. cbn.
      apply NoDup_app. split; [done|]. split; [|apply NoDup_singleton].
      by intros x Hx ->%list_elem_of_singleton.
    - intros x [Hx| ->]%flagged_flag; [by apply Hpg|].
      apply elem_of_employee_ids. by exists l. }
  assert (Hfound : ∀ e (fs : list Z), get_ResultID l = Ok e → e ∉ fs →
            NoDup fs → (∀ x, x ∈ fs → x ∈ employee_ids pool) →
            NoDup (fs ++ [e]) ∧ ∀ x, x ∈ fs ++ [e] → x ∈ employee_ids pool).
  { intros e fs Hid Hne Hnd Hp. split.
    - apply NoDup_app. split; [done|]. split; [|apply NoDup_singleton].
      by intros x Hx ->%list_elem_of_singleton.
    - intros x [Hx| ->%list_elem_of_singleton]%elem_of_app; [by apply Hp|].
      apply elem_of_employee_ids. by exists l. }
  destruct (match_step_cases pool st l)
    as [ -> | (e & Hid & Hef & Heg &
               [ -> | [ (m & -> & _) | (m & -> & _)]])]; [done| | |].
  - destruct (Hflag e Hid Heg). split; rewrite ?flag_found; done.
  - destruct (Hflag e Hid Heg).
    destruct (Hfound e (found_employees st) Hid Hef Hnf Hpf).
    split; cbn; rewrite ?flag_found; done.
  - destruct (Hfound e (found_employees st) Hid Hef Hnf Hpf).
    split; cbn; done.
Qed.

Lemma match_final_ids_inv locations :
  ids_inv locations (match_loop locations locations match_init).
Proof.
  assert (Hgen : ∀ todo st, Forall (λ l, l ∈ locations) todo →
            ids_inv locations st →
            ids_inv locations (match_loop locations todo st)).
  { unfold match_loop. induction todo as [|l todo IH]; intros st Htodo Hinv;
      [done|].
    apply Forall_cons in Htodo as [Hl Htodo]. cbn.
    apply IH; [done|]. by apply match_step_ids_inv. }
  apply Hgen; [by apply Forall_forall|].
  split; cbn; try constructor; by intros e []%elem_of_nil.
Qed.

(** X1.  The flagged list returned by [match_work_and_home] holds no
    identifier twice, and each of its identifiers is the [ResultID] of a
    result of the input. *)
Theorem flagged_employees_distinct (locations : list location) :
  let '(_, _, flagged_employees) := match_work_and_home locations in
  NoDup flagged_employees ∧
  ∀ e, e ∈ flagged_employees → ∃ l, l ∈ locations ∧ get_ResultID l = Ok e.
Proof.
  unfold match_work_and_home. cbv zeta.
  destruct (match_final_ids_inv locations) as [_ Hnd _ Hp].
  split; [done|]. intros e He. by apply elem_of_employee_ids, Hp.
Qed.

(** X2.  In every pair returned by [match_work_and_home] both results have
    a score, and neither score is 0. *)
Theorem matched_pairs_have_nonzero_scores (locations : list location) :
  let '(origins, destinations, _) := match_work_and_home locations in
  ∀ (i : nat) (o d : location),
    origins !! i = Some o → destinations !! i = Some d →
    ∃ s s', l_score o = Some s ∧ l_score d = Some s' ∧
            ¬ (s == 0)%Q ∧ ¬ (s' == 0)%Q.
Proof.
  unfold match_work_and_home. cbv zeta.
  destruct (match_final_inv locations) as [Hp _ _ _ _ _].
  intros i o d Ho Hd.
  destruct (Forall2_lookup_lr _ _ _ _ _ _ Hp Ho Hd)
    as [_ (s & s' & Hs & Hs' & Hz & Hz')].
  unfold get_score, getitem in Hs, Hs'.
  destruct (l_score o) as [q|]; [|discriminate].
  destruct (l_score d) as [q'|]; [|discriminate].
  injection Hs as ->. injection Hs' as ->.
  exists s, s'. split; [done|]. split; [done|].
  unfold is_zero in Hz, Hz'.
  split; intros Heq%Qeq_bool_iff; congruence.
Qed.

Lemma match_step_resolves pool st l e :
  get_ResultID l = Ok e → e ≠ 0 →
  e ∈ found_employees (match_step pool st l) ∨
  e ∈ flagged_employees (match_step pool st l).
Proof.
  intros Hid He. unfold match_step. rewrite Hid.
  destruct (decide _) as [Hin|_]; [done|].
  destruct (match_body pool l e st) as [st'|] eqn:Eb.
  - destruct (match_body_cases pool l e st st' Hid Eb)
      as [ -> | [ (m & -> & _) | (m & -> & _)]].
    + right. apply flagged_flag. by right.
    + left. cbn. apply elem_of_app. right. by left.
    + left. cbn. apply elem_of_app. right. by left.
  - unfold truthy. destruct (Z.eqb_spec e 0) as [|_]; [done|]. cbn.
    right. apply flagged_flag. by right.
Qed.

Lemma match_loop_resolves pool todo st l e :
  l ∈ todo → get_ResultID l = Ok e → e ≠ 0 →
  e ∈ found_employees (match_loop pool todo st) ∨
  e ∈ flagged_employees (match_loop pool todo st).
Proof.
  intros Hl Hid He. revert st.
  induction todo as [|l' todo IH]; intros st; [by apply elem_of_nil in Hl|].
  apply elem_of_cons in Hl as [<-|Hl]; [|by apply IH].
  change (match_loop pool (l :: todo) st)
    with (match_loop pool todo (match_step pool st l)).
  destruct (match_step_resolves pool st l e Hid He) as [H|H].
  - left. by apply match_loop_found_mono.
  - right. by apply match_loop_flagged_mono.
Qed.

(** An identifier among the origins comes with two results of the pool that
    passed the scan and the score test. *)
Lemma matched_employee_pair locations e :
  e ∈ employee_ids (origins (match_loop locations locations match_init)) →
  ∃ o d, o ∈ locations ∧ d ∈ locations ∧ get_ResultID o = Ok e ∧ paired o d.
Proof.
  destruct (match_final_inv locations) as [Hp _ _ _ Ho _].
  intros (o & Hin & Hid)%elem_of_employee_ids.
  apply list_elem_of_lookup in Hin as [i Hi].
  destruct (Forall2_lookup_l _ _ _ _ _ Hp Hi) as (d & Hd & Hpair).
  exists o, d. split; [by eapply (Forall_lookup_1 _ _ _ _ Ho)|].
  split; [|done].
  destruct (match_final_inv locations) as [_ _ _ _ _ Hds].
  by eapply (Forall_lookup_1 _ _ _ _ Hds).
Qed.

(** X3.  Every identifier other than 0 that can be read off a result of the
    input is, in the result of [match_work_and_home], either the identifier
    of a matched pair or in the flagged list, and never both. *)
Theorem every_employee_matched_or_flagged (locations : list location)
    (l : location) (e : Z) :
  l ∈ locations → get_ResultID l = Ok e → e ≠ 0 →
  let '(origins, _, flagged_employees) := match_work_and_home locations in
  (e ∈ employee_ids origins ∧ e ∉ flagged_employees) ∨
  ((e ∉ employee_ids origins) ∧ e ∈ flagged_employees).
Proof.
  intros Hl Hid He. unfold match_work_and_home. cbv zeta.
  destruct (match_final_inv locations) as [_ Hm Hf _ _ _].
  destruct (match_loop_resolves locations locations match_init l e Hl Hid He)
    as [Hfound|Hflagged].
  - destruct (Hf e Hfound) as [Ho|[Hg _]].
    + left. split; [done|]. by destruct (Hm e Ho).
    + right. split; [|done]. intros Ho. by destruct (Hm e Ho).
  - right. split; [|done]. intros Ho. by destruct (Hm e Ho).
Qed.

(** X3 on a pool with one complete pair. *)
Lemma every_employee_matched_or_flagged_witness :
  let locations := [ tagged 7 "WORK" "1 Main St" 100%Q;
                     tagged 7 "HOME" "12 Elm St" 100%Q ] in
  let '(origins, _, flagged_employees) := match_work_and_home locations in
  (7 ∈ employee_ids origins ∧ 7 ∉ flagged_employees) ∨
  ((7 ∉ employee_ids origins) ∧ 7 ∈ flagged_employees).
Proof.
  apply (every_employee_matched_or_flagged
           [ tagged 7 "WORK" "1 Main St" 100%Q;
             tagged 7 "HOME" "12 Elm St" 100%Q ]
           (tagged 7 "WORK" "1 Main St" 100%Q) 7);
    [by left|reflexivity|lia].
Defined.

(** X4.  An employee, other than 0, all of whose results in the input carry
    the same address is flagged and not matched. *)
Theorem same_address_flagged (locations : list location)
    (l : location) (e : Z) (a : string) :
  l ∈ locations → get_ResultID l = Ok e → e ≠ 0 →
  (∀ m, m ∈ locations → get_ResultID m = Ok e → get_address m = Ok a) →
  let '(origins, _, flagged_employees) := match_work_and_home locations in
  (e ∉ employee_ids origins) ∧ e ∈ flagged_employees.
Proof.
  intros Hl Hid He Hsame. unfold match_work_and_home. cbv zeta.
  assert (Hno : e ∉ employee_ids
                    (origins (match_loop locations locations match_init))).
  { intros (o & d & Ho & Hd & Hido & [Hc _])%matched_employee_pair.
    destruct Hc as (e' & t & t' & a1 & a2 & Hio & Hidd & _ & _ & _ & Ha1 & Ha2 & Hne).
    assert (e' = e) as -> by congruence.
    rewrite (Hsame o Ho Hio) in Ha1. rewrite (Hsame d Hd Hidd) in Ha2.
    congruence. }
  split; [done|].
  destruct (match_final_inv locations) as [_ _ Hf _ _ _].
  destruct (match_loop_resolves locations locations match_init l e Hl Hid He)
    as [Hfound|Hflagged]; [|done].
  by destruct (Hf e Hfound) as [Ho|[Hg _]].
Qed.

(** X4 on an employee whose work and home addresses are the same text. *)
Lemma same_address_flagged_witness :
  let locations := [ tagged 7 "WORK" "1 Main St" 100%Q;
                     tagged 7 "HOME" "1 Main St" 100%Q ] in
  let '(origins, _, flagged_employees) := match_work_and_home locations in
  (7 ∉ employee_ids origins) ∧ 7 ∈ flagged_employees.
Proof.
  apply (same_address_flagged
           [ tagged 7 "WORK" "1 Main St" 100%Q;
             tagged 7 "HOME" "1 Main St" 100%Q ]
           (tagged 7 "WORK" "1 Main St" 100%Q) 7 "1 Main St");
    [by left|reflexivity|lia|].
  intros m [->|[->|[]%elem_of_nil]%elem_of_cons]%elem_of_cons _; reflexivity.
Defined.

(** *** Pools of complete pairs *)

Lemma interleave_cons p ps : interleave (p :: ps) = p.1 :: p.2 :: interleave ps.
Proof. done. Qed.

Lemma interleave_app ps qs : interleave (ps ++ qs) = interleave ps ++ interleave qs.
Proof. unfold interleave. apply bind_app. Qed.

Lemma interleave_ids pairs :
  Forall (λ p, paired p.1 p.2) pairs →
  Forall2 (λ l e, get_ResultID l = Ok e) (interleave pairs)
          (employee_ids pairs.*1 ≫= λ e, [e; e]).
Proof.
  induction 1 as [|p ps [(e & t & t' & a & a' & Hl & Hm & _) _] _ IH];
    [constructor|].
  rewrite interleave_cons, fmap_cons, (employee_ids_cons _ _ e Hl).
  cbn [mbind list_bind app]. by repeat constructor.
Qed.

Lemma match_interleaved_loop pre ps :
  Forall (λ p, paired p.1 p.2) pre →
  Forall (λ p, paired p.1 p.2) ps →
  NoDup (employee_ids (pre ++ ps).*1) →
  fold_left (match_step (interleave (pre ++ ps))) (interleave ps)
    (MatchState (employee_ids pre.*1) pre.*1 pre.*2 []) =
  MatchState (employee_ids (pre ++ ps).*1) (pre ++ ps).*1 (pre ++ ps).*2 [].
Proof.
  intros Hpre Hps. revert pre Hpre.
  induction Hps as [|[l m] ps Hp Hps IH]; intros pre Hpre Hnd.
  { by rewrite app_nil_r. }
  cbn [fst snd] in Hp.
  pose proof Hp as [(e & t & t' & a & a' & Hl & Hm & Ht & Ht' & Hnt & Ha & Ha' & Hna) _].
  assert (Hfresh : e ∉ employee_ids pre.*1).
  { rewrite fmap_app, employee_ids_app, fmap_cons in Hnd.
    rewrite (employee_ids_cons _ _ e Hl) in Hnd.
    apply NoDup_app in Hnd as (_ & Hdisj & _).
    intros Hin. apply (Hdisj e Hin). by left. }
  assert (Hscan : scan_finds (interleave (pre ++ (l, m) :: ps)) l m).
  { exists e, a, t. repeat split; try done.
    rewrite interleave_app, interleave_cons. cbn [fst snd].
    rewrite (next_match_skip _ _ _ _ _ _ (interleave_ids pre Hpre)).
    2:{ intros (x & Hx & Hin)%list_elem_of_bind.
        apply elem_of_cons in Hx as [->|[->|[]%elem_of_nil]%elem_of_cons];
          done. }
    rewrite (next_match_self _ _ _ _ _ Hl Ha).
    by apply (next_match_hit m _ e a t a' t'). }
  rewrite interleave_cons. cbn [fst snd fold_left].
  rewrite (match_step_rematch _ _ l m e Hp Hscan Hl); [|done|apply not_elem_of_nil].
  assert (Hskip : ∀ pool st, e ∈ found_employees st → match_step pool st m = st).
  { intros pool st Hin. unfold match_step. rewrite Hm.
    destruct (decide _) as [|Hno]; [done|tauto]. }
  rewrite Hskip by (cbn; apply elem_of_app; right; by left).
  specialize (IH (pre ++ [(l, m)])).
  rewrite <- !(app_assoc pre [(l, m)] ps) in IH. cbn [app] in IH.
  rewrite !fmap_app in IH. cbn [fmap list_fmap fst snd] in IH.
  rewrite (employee_ids_snoc _ _ e Hl) in IH.
  unfold mark_found, append_pair.
  cbn [found_employees origins destinations flagged_employees].
  rewrite IH; [by rewrite !fmap_app|..].
  - apply Forall_app. split; [done|]. by constructor.
  - by rewrite fmap_app in Hnd.
Qed.

(** X5.  On a pool made of complete pairs of pairwise distinct employees,
    each pair's first result followed by its second, [match_work_and_home]
    matches every pair, in order, with the first result as origin and the
    second as destination, and flags nobody. *)
Theorem match_interleaved_pairs (pairs : list (location * location)) :
  Forall (λ p, paired p.1 p.2) pairs →
  NoDup (employee_ids pairs.*1) →
  match_work_and_home (interleave pairs) = (pairs.*1, pairs.*2, []).
Proof.
  intros Hp Hnd. unfold match_work_and_home, match_loop. cbv zeta.
  pose proof (match_interleaved_loop [] pairs (Forall_nil_2 _) Hp Hnd) as H.
  cbn [app] in H. cbn [fmap list_fmap employee_ids omap list_omap] in H.
  unfold match_init. by rewrite H.
Qed.

Lemma tagged_paired e t t' a a' s s' :
  t' ≠ t → a' ≠ a → is_zero s = false → is_zero s' = false →
  paired (tagged e t a s) (tagged e t' a' s').
Proof.
  intros Ht Ha Hs Hs'. split.
  - by exists e, t, t', a, a'.
  - by exists s, s'.
Qed.

(** X5 on two employees, the second with the HOME result first. *)
Lemma match_interleaved_pairs_witness :
  match_work_and_home
    (interleave
       [ (tagged 7 "WORK" "1 Main St" 100%Q, tagged 7 "HOME" "12 Elm St" 90%Q);
         (tagged 9 "HOME" "3 Oak Ave" 80%Q, tagged 9 "WORK" "1 Main St" 100%Q) ])
  = ([ tagged 7 "WORK" "1 Main St" 100%Q; tagged 9 "HOME" "3 Oak Ave" 80%Q ],
     [ tagged 7 "HOME" "12 Elm St" 90%Q; tagged 9 "WORK" "1 Main St" 100%Q ],
     []).
Proof.
  apply (match_interleaved_pairs
    [ (tagged 7 "WORK" "1 Main St" 100%Q, tagged 7 "HOME" "12 Elm St" 90%Q);
      (tagged 9 "HOME" "3 Oak Ave" 80%Q, tagged 9 "WORK" "1 Main St" 100%Q) ]).
  - repeat constructor; by apply tagged_paired.
  - by apply (bool_decide_unpack _).
Defined.

Lemma match_single_pair o d :
  paired o d → match_work_and_home [o; d] = ([o], [d], []).
Proof.
  intros Hp. unfold match_work_and_home, match_loop. cbv zeta.
  pose proof Hp as [(e & t & t' & a & a' & Ho & _) _].
  pose proof (match_interleaved_loop [] [(o, d)] (Forall_nil_2 _)) as H.
  cbn [app fmap list_fmap fst snd] in H.
  rewrite (employee_ids_cons _ _ e Ho) in H.
  change (interleave [(o, d)]) with [o; d] in H.
  change (employee_ids []) with (@nil Z) in H.
  unfold match_init. rewrite H; [done| |].
  - by constructor.
  - cbn. apply NoDup_singleton.
Qed.

(** X6.  When the pool holds just two results of one employee that pass the
    scan for each other and the score test finds a 0, the employee is
    flagged and no pair is returned. *)
Theorem zero_score_flags_pair (l m : location) (e : Z) :
  get_ResultID l = Ok e → counterpart l m → zero_scored l m →
  match_work_and_home [l; m] = ([], [], [e]).
Proof.
  intros Hid (e' & t & t' & a & a' & Hl & Hm & Ht & Ht' & Hnt & Ha & Ha' & Hna) Hz.
  assert (e' = e) as -> by congruence.
  assert (Hbody : match_body [l; m] l e match_init =
                  Ok (mark_found e (flag e match_init))).
  { unfold match_body. rewrite Ht. cbn [mbind result_bind].
    rewrite Ha. cbn [mbind result_bind].
    rewrite (next_match_self _ _ _ _ _ Hl Ha).
    rewrite (next_match_hit m [] e a t a' t') by done.
    cbn [mbind result_bind].
    destruct Hz as [(s & Hs & Hzero)|(s & s' & Hs & Hnz & Hs' & Hzero)].
    - rewrite Hs. cbn [mbind result_bind]. by rewrite Hzero.
    - rewrite Hs. cbn [mbind result_bind]. rewrite Hnz.
      rewrite Hs'. cbn [mbind result_bind]. by rewrite Hzero. }
  unfold match_work_and_home, match_loop. cbv zeta. cbn [fold_left].
  assert (match_step [l; m] match_init l = mark_found e (flag e match_init))
    as ->.
  { unfold match_step. rewrite Hl. destruct (decide _) as [[[]%elem_of_nil|[]%elem_of_nil]|_].
    by rewrite Hbody. }
  unfold match_step. rewrite Hm.
  destruct (decide _) as [_|Hno].
  - unfold flag. cbn. by destruct (decide _) as [[]%elem_of_nil|_].
  - exfalso. apply Hno. left. cbn. apply elem_of_app. right. by left.
Qed.

(** X6 on a pair whose second score is 0. *)
Lemma zero_score_flags_pair_witness :
  match_work_and_home [ tagged 7 "WORK" "1 Main St" 100%Q;
                        tagged 7 "HOME" "12 Elm St" 0%Q ] = ([], [], [7]).
Proof.
  apply (zero_score_flags_pair
           (tagged 7 "WORK" "1 Main St" 100%Q) (tagged 7 "HOME" "12 Elm St" 0%Q) 7).
  - reflexivity.
  - by exists 7, "WORK", "HOME", "1 Main St", "12 Elm St".
  - right. by exists 100%Q, 0%Q.
Defined.

(** * Further properties of [geocode_addresses] *)

(** X7.  Two candidates with readable identifiers, different addresses and
    scores other than 0 go through the disambiguation and then through
    [match_work_and_home] as one matched pair, the first candidate as origin
    and the second as destination, whichever of them became WORK. *)
Theorem geocoded_pair_is_matched (first second : location)
    (id1 id2 : Z) (a1 a2 : string) (s1 s2 : Q) :
  get_ResultID first = Ok id1 → get_ResultID second = Ok id2 →
  l_address first = Some a1 → l_address second = Some a2 → a1 ≠ a2 →
  l_score first = Some s1 → l_score second = Some s2 →
  is_zero s1 = false → is_zero s2 = false →
  ∃ o d,
    geocode_addresses (Ok (GeocodeJson (Some [first; second])))
      = Ok (Some [o; d]) ∧
    l_address o = Some a1 ∧ l_address d = Some a2 ∧
    match_work_and_home [o; d] = ([o], [d], []).
Proof.
  unfold get_ResultID. intros H1 H2 Ha1 Ha2 Hne Hs1 Hs2 Hz1 Hz2.
  destruct (l_attributes first) as [at1|] eqn:E1; [|discriminate].
  destruct (l_attributes second) as [at2|] eqn:E2; [|discriminate].
  cbn [mbind result_bind getitem] in H1, H2.
  destruct (ResultID at1) as [i1|] eqn:R1; [|discriminate].
  destruct (ResultID at2) as [i2|] eqn:R2; [|discriminate].
  injection H1 as ->. injection H2 as ->.
  unfold geocode_addresses, assign_address_types.
  cbn [gj_locations length]. destruct (decide (2%nat = 0%nat)); [done|].
  rewrite E1, E2. cbn [mbind result_bind getitem].
  rewrite R1, R2. cbn [mbind result_bind getitem].
  destruct (decide (id1 > id2)); cbn [mbind result_bind];
    eexists _, _; (split; [reflexivity|]);
    (split; [done|]); (split; [done|]);
    apply match_single_pair; split.
  - exists id2, HOME_ADDRESS_TYPE, WORK_ADDRESS_TYPE, a1, a2.
    unfold get_ResultID, get_address_type, get_address. cbn.
    rewrite R2, Ha1, Ha2. cbn. repeat split; done.
  - exists s1, s2. unfold get_score. cbn. by rewrite Hs1, Hs2.
  - exists id1, WORK_ADDRESS_TYPE, HOME_ADDRESS_TYPE, a1, a2.
    unfold get_ResultID, get_address_type, get_address. cbn.
    rewrite R1, Ha1, Ha2. cbn. repeat split; done.
  - exists s1, s2. unfold get_score. cbn. by rewrite Hs1, Hs2.
Qed.

(** X7 on the candidates 101 and 100. *)
Lemma geocoded_pair_is_matched_witness :
  ∃ o d,
    geocode_addresses (Ok (GeocodeJson (Some
      [untagged 101 "12 Elm St" 90%Q; untagged 100 "1 Main St" 100%Q])))
      = Ok (Some [o; d]) ∧
    l_address o = Some "12 Elm St" ∧ l_address d = Some "1 Main St" ∧
    match_work_and_home [o; d] = ([o], [d], []).
Proof.
  apply (geocoded_pair_is_matched
           (untagged 101 "12 Elm St" 90%Q) (untagged 100 "1 Main St" 100%Q)
           101 100 "12 Elm St" "1 Main St" 90%Q 100%Q); done.
Defined.

Lemma assign_address_types_raise first second :
  (∃ x, assign_address_types first second = Raise x) ↔
  (∃ x, get_ResultID first = Raise x) ∨ (∃ x, get_ResultID second = Raise x).
Proof.
  unfold assign_address_types, get_ResultID.
  destruct (l_attributes first) as [at1|]; cbn [getitem mbind result_bind].
  2:{ split; [intros _; left|intros _]; by eexists. }
  destruct (ResultID at1) as [id1|]; cbn [getitem mbind result_bind].
  2:{ split; [intros _; left|intros _]; by eexists. }
  destruct (l_attributes second) as [at2|]; cbn [getitem mbind result_bind].
  2:{ split; [intros _; right|intros _]; by eexists. }
  destruct (ResultID at2) as [id2|]; cbn [getitem mbind result_bind].
  2:{ split; [intros _; right|intros _]; by eexists. }
  split; [intros [x Hx]; by destruct (decide _)|].
  by intros [[? ?]|[? ?]].
Qed.

(** X8.  [geocode_addresses] gives [None] exactly when the request raised,
    the reply has no ["locations"] or the list is empty; an exception leaves
    it exactly when two candidates came back and the identifier of one of
    them cannot be read. *)
Theorem geocode_addresses_outcome (reply : result geocode_json) :
  (geocode_addresses reply = Ok None ↔
     (∃ x, reply = Raise x) ∨ reply = Ok (GeocodeJson None) ∨
     reply = Ok (GeocodeJson (Some []))) ∧
  ((∃ x, geocode_addresses reply = Raise x) ↔
     ∃ first second,
       reply = Ok (GeocodeJson (Some [first; second])) ∧
       ((∃ x, get_ResultID first = Raise x) ∨
        (∃ x, get_ResultID second = Raise x))).
Proof.
  destruct reply as [[[locations|]]|x]; cbn [geocode_addresses gj_locations].
  2:{ split; [split; [intros _; right; by left|done]|].
      split; [by intros [? ?]|]. by intros (? & ? & ? & _). }
  2:{ split; [split; [intros _; left; by exists x|done]|].
      split; [by intros [? ?]|]. by intros (? & ? & ? & _). }
  destruct locations as [|first [|second [|third rest]]].
  - split; [split; [intros _; right; by right|done]|].
    split; [by intros [? ?]|]. by intros (? & ? & ? & _).
  - cbn. split; [split; [done|by intros [[? ?]|[?|?]]]|].
    split; [by intros [? ?]|]. by intros (? & ? & ? & _).
  - cbn [length]. destruct (decide _) as [|_]; [done|].
    pose proof (assign_address_types_raise first second) as Hraise.
    destruct (assign_address_types first second) as [[first' second']|x];
      cbn [mbind result_bind].
    + split; [split; [done|by intros [[? ?]|[?|?]]]|].
      split; [by intros [? ?]|].
      intros (f' & s' & [= <- <-] & Hor). apply Hraise in Hor as [? ?]. done.
    + split; [split; [done|by intros [[? ?]|[?|?]]]|].
      split; [|by eexists]. intros _. exists first, second.
      split; [done|]. apply Hraise. by eexists.
  - cbn. split; [split; [done|by intros [[? ?]|[?|?]]]|].
    split; [by intros [? ?]|]. by intros (? & ? & ? & _).
Qed.

(** X9.  When [geocode_addresses] returns a list, it has as many results
    as the reply, in the same order, each with the address, score and point
    it came with; a list of one or of more than two results is returned as
    it came. *)
Theorem geocode_addresses_preserves (reply : result geocode_json)
    (returned : list location) :
  geocode_addresses reply = Ok (Some returned) →
  ∃ locations,
    reply = Ok (GeocodeJson (Some locations)) ∧
    Forall2 (λ l l', l_address l' = l_address l ∧ l_score l' = l_score l ∧
                     l_location l' = l_location l) locations returned ∧
    (length locations ≠ 2%nat → returned = locations).
Proof.
  destruct reply as [[[locations|]]|x]; cbn [geocode_addresses gj_locations];
    [|done..].
  intros H. exists locations. split; [done|].
  assert (Hsame : Forall2 (λ l l', l_address l' = l_address l ∧
                    l_score l' = l_score l ∧ l_location l' = l_location l)
                    locations locations).
  { by apply Forall2_same_length_lookup_2; [|intros i l l' -> [= ->]]. }
  destruct (decide _) as [|_]; [done|].
  destruct locations as [|first [|second [|third rest]]];
    try (injection H as <-; by split).
  unfold assign_address_types in H.
  destruct (l_attributes first) as [at1|]; cbn [getitem mbind result_bind] in H;
    [|done].
  destruct (ResultID at1) as [id1|]; cbn [getitem mbind result_bind] in H;
    [|done].
  destruct (l_attributes second) as [at2|]; cbn [getitem mbind result_bind] in H;
    [|done].
  destruct (ResultID at2) as [id2|]; cbn [getitem mbind result_bind] in H;
    [|done].
  destruct (decide _); cbn [mbind result_bind] in H; injection H as <-;
    (split; [by repeat constructor|done]).
Qed.

(** X9 on a reply with three candidates. *)
Lemma geocode_addresses_preserves_witness :
  let three := [ untagged 5 "1 Main St" 100%Q; untagged 6 "12 Elm St" 90%Q;
                 untagged 6 "12 Elm Street" 80%Q ] in
  ∃ locations,
    Ok (GeocodeJson (Some three)) = Ok (GeocodeJson (Some locations)) ∧
    Forall2 (λ l l', l_address l' = l_address l ∧ l_score l' = l_score l ∧
                     l_location l' = l_location l) locations three ∧
    (length locations ≠ 2%nat → three = locations).
Proof.
  apply (geocode_addresses_preserves
           (Ok (GeocodeJson (Some
              [ untagged 5 "1 Main St" 100%Q; untagged 6 "12 Elm St" 90%Q;
                untagged 6 "12 Elm Street" 80%Q ])))).
  reflexivity.
Defined.

(** * Further properties of [read_worker_info] *)

Ltac in_columns := unfold columns; repeat (first [by left | right]).

Lemma worker_records_raise_iff f worker :
  (∃ x, worker_records f worker = Raise x) ↔
  (∃ c, c ∈ columns f ∧ worker !! c = None) ∨
  (∃ s, worker !! employee_number_field f = Some (CStr s)).
Proof.
  assert (Hin : ∀ c, worker !! c = None → c ∈ columns f →
            (∃ c, c ∈ columns f ∧ worker !! c = None) ∨
            (∃ s, worker !! employee_number_field f = Some (CStr s))).
  { intros c Hc Hcol. left. by exists c. }
  unfold worker_records, worker_get.
  destruct (worker !! employee_number_field f) as [employee|] eqn:E0;
    cbn [getitem mbind result_bind].
  2:{ split; [intros _; apply (Hin _ E0); in_columns|by eexists]. }
  destruct (worker !! work_address_field f) eqn:E1; cbn [getitem mbind result_bind].
  2:{ split; [intros _; apply (Hin _ E1); in_columns|by eexists]. }
  destruct (worker !! work_city_field f) eqn:E2; cbn [getitem mbind result_bind].
  2:{ split; [intros _; apply (Hin _ E2); in_columns|by eexists]. }
  destruct (worker !! work_state_field f) eqn:E3; cbn [getitem mbind result_bind].
  2:{ split; [intros _; apply (Hin _ E3); in_columns|by eexists]. }
  destruct (worker !! work_zip_field f) eqn:E4; cbn [getitem mbind result_bind].
  2:{ split; [intros _; apply (Hin _ E4); in_columns|by eexists]. }
  destruct (worker !! home_address_field f) eqn:E5; cbn [getitem mbind result_bind].
  2:{ split; [intros _; apply (Hin _ E5); in_columns|by eexists]. }
  destruct (worker !! home_city_field f) eqn:E6; cbn [getitem mbind result_bind].
  2:{ split; [intros _; apply (Hin _ E6); in_columns|by eexists]. }
  destruct (worker !! home_state_field f) eqn:E7; cbn [getitem mbind result_bind].
  2:{ split; [intros _; apply (Hin _ E7); in_columns|by eexists]. }
  destruct (worker !! home_zip_field f) eqn:E8; cbn [getitem mbind result_bind].
  2:{ split; [intros _; apply (Hin _ E8); in_columns|by eexists]. }
  destruct employee as [e|s]; cbn [add_one mbind result_bind].
  2:{ split; [intros _; right; by exists s|by eexists]. }
  split; [by intros [? ?]|].
  intros [(col & Hc & Hnone)|(s & [=])].
  unfold columns in Hc.
  repeat (apply elem_of_cons in Hc as [->|Hc]; [congruence|]).
  by apply elem_of_nil in Hc.
Qed.

(** X10.  A row that lacks one of the nine columns, or whose employee
    number is text, adds nothing to the result of [read_worker_info] and
    leaves the requests of the rows before and after it as they are. *)
Theorem read_worker_info_skips_row (before after : list (gmap string cell))
    (worker : gmap string cell) (f : worker_fields) :
  (∃ c, c ∈ columns f ∧ worker !! c = None) ∨
  (∃ s, worker !! employee_number_field f = Some (CStr s)) →
  read_worker_info (before ++ worker :: after) f =
  read_worker_info before f ++ read_worker_info after f.
Proof.
  intros [x Hx]%worker_records_raise_iff.
  rewrite !read_worker_info_omap, omap_app. f_equal.
  cbn. by rewrite Hx.
Qed.

(** X10 on a roster whose second row has no home zip code. *)
Lemma read_worker_info_skips_row_witness :
  read_worker_info
    ([sample_worker 1] ++ delete "Home_Zip" (sample_worker 2) :: [sample_worker 5])
    sample_fields =
  read_worker_info [sample_worker 1] sample_fields ++
  read_worker_info [sample_worker 5] sample_fields.
Proof.
  apply (read_worker_info_skips_row [sample_worker 1] [sample_worker 5]
           (delete "Home_Zip" (sample_worker 2)) sample_fields).
  left. exists "Home_Zip". split; [|reflexivity].
  in_columns.
Defined.

(** X11.  For a roster in which every row has the nine columns and a
    whole-number employee number, [read_worker_info] returns one request per
    row, in the order of the rows: the work record carries the employee
    number and the four work columns, the home record the employee number
    plus 1 and the four home columns. *)
Theorem read_worker_info_complete_roster (worker_info : list (gmap string cell))
    (f : worker_fields) :
  Forall (λ worker,
            (∀ c, c ∈ columns f → is_Some (worker !! c)) ∧
            ∃ e, worker !! employee_number_field f = Some (CInt e)) worker_info →
  Forall2 (built_from f) worker_info (read_worker_info worker_info f).
Proof.
  rewrite read_worker_info_omap.
  induction 1 as [|worker rows [Hcols [e He]] _ IH]; [constructor|].
  assert (Hc : ∀ c, c ∈ columns f → ∃ v, worker !! c = Some v).
  { intros c Hin. by apply Hcols. }
  destruct (Hc (work_address_field f)) as [wa Hwa]; [in_columns|].
  destruct (Hc (work_city_field f)) as [wc Hwc]; [in_columns|].
  destruct (Hc (work_state_field f)) as [ws Hws]; [in_columns|].
  destruct (Hc (work_zip_field f)) as [wz Hwz]; [in_columns|].
  destruct (Hc (home_address_field f)) as [ha Hha]; [in_columns|].
  destruct (Hc (home_city_field f)) as [hc Hhc]; [in_columns|].
  destruct (Hc (home_state_field f)) as [hs Hhs]; [in_columns|].
  destruct (Hc (home_zip_field f)) as [hz Hhz]; [in_columns|].
  assert (Hrec : worker_records f worker =
            Ok [ AddressRecord (CInt e) wa wc ws wz;
                 AddressRecord (CInt (e + 1)) ha hc hs hz ]).
  { unfold worker_records, worker_get.
    rewrite He, Hwa, Hwc, Hws, Hwz, Hha, Hhc, Hhs, Hhz. done. }
  simpl. rewrite Hrec. constructor; [|exact IH].
  by exists e, wa, wc, ws, wz, ha, hc, hs, hz.
Qed.

(** X11 on the sample roster. *)
Lemma read_worker_info_complete_roster_witness :
  Forall2 (built_from sample_fields)
          [sample_worker 1; sample_worker 5]
          (read_worker_info [sample_worker 1; sample_worker 5] sample_fields).
Proof.
  apply (read_worker_info_complete_roster [sample_worker 1; sample_worker 5]
           sample_fields).
  repeat constructor.
  - intros c Hc. unfold columns, sample_fields in Hc. cbn in Hc.
    repeat (apply elem_of_cons in Hc as [->|Hc]; [by eexists|]).
    by apply elem_of_nil in Hc.
  - by exists 1.
  - intros c Hc. unfold columns, sample_fields in Hc. cbn in Hc.
    repeat (apply elem_of_cons in Hc as [->|Hc]; [by eexists|]).
    by apply elem_of_nil in Hc.
  - by exists 5.
Defined.

(** * Further properties of [generate_token] and [calculate_commute] *)

(** X12.  [generate_token] hands back a token exactly when the reply has no
    ["error"] entry and has a ["token"] entry, and then it is that entry: an
    ["error"] entry wins over a ["token"] entry.  Whatever the reply, it
    makes one request. *)
Theorem generate_token_some (username password : string)
    (reply : result token_json) (t : string) :
  ((generate_token username password reply).1 = Ok (Some t) ↔
   reply = Ok (TokenJson None (Some t))) ∧
  token_requests (generate_token username password reply).2
    = [(username, password)].
Proof.
  unfold generate_token.
  destruct reply as [[[[code message]|] tok]|]; cbn.
  - destruct code, message; cbn; by split.
  - destruct tok; cbn; split; try done; split; congruence.
  - by split.
Qed.

Lemma poll_in_progress {features : Type} username password
    (R : @remote features) analysis_url job_id pre rest n token tr :
  Forall in_progress pre →
  poll username password R analysis_url job_id (pre ++ rest) n token tr =
  poll username password R analysis_url job_id rest n token
       (tr ++ waiting analysis_url job_id token (length pre)).
Proof.
  intros Hpre. revert tr.
  induction Hpre as [|reply pre (s & p & e & -> & Hs) _ IH]; intros tr.
  { unfold waiting. cbn. by rewrite app_nil_r. }
  cbn [app poll jobStatus].
  destruct (decide (s = "esriJobSucceeded")) as [->|_];
    [by destruct Hs|].
  destruct (decide (s = "esriJobFailed")) as [->|_]; [by destruct Hs|].
  destruct (decide _) as [_|]; [|done].
  rewrite IH. f_equal. unfold waiting. cbn. by rewrite <- !app_assoc.
Qed.

(** X13.  After any number of replies saying the job is submitted or
    executing, a reply [esriJobSucceeded] makes [calculate_commute] fetch
    the routes and return their features: one status query and one pause of
    3 per waiting reply, all with the token passed in, no token request and
    no critical line; later replies are not asked for. *)
Theorem calculate_commute_succeeds {features : Type} (fs : features)
    (username password analysis_url job_id routes_url : string)
    (token : option string) (R : @remote features)
    (pre rest : list (result status_json)) (e : option status_error) :
  submit_reply R = Ok (SubmitJson (Some job_id)) →
  Forall in_progress pre →
  status_replies R =
    pre ++ Ok (StatusJson (Some "esriJobSucceeded") (Some routes_url) e) :: rest →
  routes_reply R = Ok (Some fs) →
  let url := analysis_url +:+ "ConnectOriginsToDestinations" in
  calculate_commute username password R analysis_url token =
  (Returned (Some fs),
   [PostSubmitJob url token] ++ waiting url job_id token (length pre) ++
   [GetJobStatus url job_id token; GetRoutes url job_id routes_url token]).
Proof.
  intros Hsub Hpre Hst Hroutes. cbv zeta. unfold calculate_commute.
  rewrite Hsub, Hst. cbn [sj_jobId].
  rewrite (poll_in_progress _ _ _ _ _ _ _ _ _ _ Hpre).
  cbn [poll jobStatus routes_paramUrl getitem]. rewrite Hroutes.
  cbn [mbind result_bind getitem]. by rewrite <- !app_assoc.
Qed.

(** X13 with four waiting replies. *)
Lemma calculate_commute_succeeds_witness :
  let waits := replicate 4 (Ok (StatusJson (Some "esriJobExecuting") None None)) in
  let R := @Remote (list route_attributes) (Ok (SubmitJson (Some "j1")))
             (waits ++ [Ok (StatusJson (Some "esriJobSucceeded") (Some "routes") None)])
             (λ _, Raise RequestException) (Ok (Some [])) in
  calculate_commute "user" "secret" R "https://a/" (Some "t0") =
  (Returned (Some []),
   [PostSubmitJob "https://a/ConnectOriginsToDestinations" (Some "t0")] ++
   waiting "https://a/ConnectOriginsToDestinations" "j1" (Some "t0") (length waits) ++
   [ GetJobStatus "https://a/ConnectOriginsToDestinations" "j1" (Some "t0");
     GetRoutes "https://a/ConnectOriginsToDestinations" "j1" "routes" (Some "t0") ]).
Proof.
  cbv zeta.
  apply (calculate_commute_succeeds (features:=list route_attributes) []
           "user" "secret" "https://a/" "j1" "routes" (Some "t0") _
           (replicate 4 (Ok (StatusJson (Some "esriJobExecuting") None None)))
           [] None); try reflexivity.
  repeat constructor; exists "esriJobExecuting", None, None; by split; [|right].
Defined.

(** X14.  After any number of waiting replies, a reply [esriJobFailed]
    ends the run: [None] is returned with one critical line, the routes are
    never asked for and later replies are not asked for. *)
Theorem calculate_commute_job_failed {features : Type}
    (username password analysis_url job_id : string)
    (token : option string) (R : @remote features)
    (pre rest : list (result status_json))
    (p : option string) (e : option status_error) :
  submit_reply R = Ok (SubmitJson (Some job_id)) →
  Forall in_progress pre →
  status_replies R = pre ++ Ok (StatusJson (Some "esriJobFailed") p e) :: rest →
  let url := analysis_url +:+ "ConnectOriginsToDestinations" in
  calculate_commute username password R analysis_url token =
  (Returned None,
   [PostSubmitJob url token] ++ waiting url job_id token (length pre) ++
   [GetJobStatus url job_id token; LogCritical InCalculateCommute]).
Proof.
  intros Hsub Hpre Hst. cbv zeta. unfold calculate_commute.
  rewrite Hsub, Hst. cbn [sj_jobId].
  rewrite (poll_in_progress _ _ _ _ _ _ _ _ _ _ Hpre).
  cbn [poll jobStatus]. unfold fail. by rewrite <- !app_assoc.
Qed.

(** X14 with one waiting reply. *)
Lemma calculate_commute_job_failed_witness :
  let R := @Remote (list route_attributes) (Ok (SubmitJson (Some "j1")))
             [ Ok (StatusJson (Some "esriJobSubmitted") None None);
               Ok (StatusJson (Some "esriJobFailed") None None);
               Ok (StatusJson (Some "esriJobSucceeded") (Some "routes") None) ]
             (λ _, Raise RequestException) (Ok (Some [])) in
  calculate_commute "user" "secret" R "https://a/" (Some "t0") =
  (Returned None,
   [PostSubmitJob "https://a/ConnectOriginsToDestinations" (Some "t0")] ++
   waiting "https://a/ConnectOriginsToDestinations" "j1" (Some "t0") 1 ++
   [ GetJobStatus "https://a/ConnectOriginsToDestinations" "j1" (Some "t0");
     LogCritical InCalculateCommute ]).
Proof.
  cbv zeta.
  apply (calculate_commute_job_failed (features:=list route_attributes)
           "user" "secret" "https://a/" "j1" (Some "t0") _
           [Ok (StatusJson (Some "esriJobSubmitted") None None)]
           [Ok (StatusJson (Some "esriJobSucceeded") (Some "routes") None)]
           None None); try reflexivity.
  repeat constructor. exists "esriJobSubmitted", None, None. by split; [|left].
Defined.

Lemma waiting_no_critical analysis_url job_id token k :
  critical_lines (waiting analysis_url job_id token k) = [].
Proof. induction k as [|k IH]; [done|]. exact IH. Qed.

(** X15.  A status other than submitted, executing, succeeded or failed
    ends the loop after one pause: [calculate_commute] returns [None], asks
    for no routes, and logs no critical line. *)
Theorem calculate_commute_unknown_status {features : Type}
    (username password analysis_url job_id s : string)
    (token : option string) (R : @remote features)
    (pre rest : list (result status_json))
    (p : option string) (e : option status_error) :
  submit_reply R = Ok (SubmitJson (Some job_id)) →
  Forall in_progress pre →
  status_replies R = pre ++ Ok (StatusJson (Some s) p e) :: rest →
  s ∉ ["esriJobSubmitted"; "esriJobExecuting"; "esriJobSucceeded"; "esriJobFailed"] →
  let url := analysis_url +:+ "ConnectOriginsToDestinations" in
  let run := calculate_commute username password R analysis_url token in
  run = (Returned None,
         [PostSubmitJob url token] ++ waiting url job_id token (length pre) ++
         [GetJobStatus url job_id token; Sleep 3]) ∧
  critical_lines run.2 = [].
Proof.
  intros Hsub Hpre Hst Hs. cbv zeta.
  assert (Hrun : calculate_commute username password R analysis_url token =
    (Returned None,
     [PostSubmitJob (analysis_url +:+ "ConnectOriginsToDestinations") token] ++
     waiting (analysis_url +:+ "ConnectOriginsToDestinations") job_id token
       (length pre) ++
     [GetJobStatus (analysis_url +:+ "ConnectOriginsToDestinations") job_id token;
      Sleep 3])).
  { unfold calculate_commute. rewrite Hsub, Hst. cbn [sj_jobId].
    rewrite (poll_in_progress _ _ _ _ _ _ _ _ _ _ Hpre).
    cbn [poll jobStatus].
    destruct (decide (s = "esriJobSucceeded")) as [->|_]; [set_solver|].
    destruct (decide (s = "esriJobFailed")) as [->|_]; [set_solver|].
    destruct (decide _) as [[-> | ->]|_]; [set_solver..|].
    by rewrite <- !app_assoc. }
  split; [exact Hrun|]. rewrite Hrun. cbn [snd].
  unfold critical_lines. rewrite !omap_app.
  fold (critical_lines (waiting (analysis_url +:+ "ConnectOriginsToDestinations")
                          job_id token (length pre))).
  by rewrite waiting_no_critical.
Qed.

(** X15 on a cancelled job. *)
Lemma calculate_commute_unknown_status_witness :
  let R := @Remote (list route_attributes) (Ok (SubmitJson (Some "j1")))
             [Ok (StatusJson (Some "esriJobCancelled") None None)]
             (λ _, Raise RequestException) (Ok (Some [])) in
  let run := calculate_commute "user" "secret" R "https://a/" (Some "t0") in
  run = (Returned None,
         [PostSubmitJob "https://a/ConnectOriginsToDestinations" (Some "t0")] ++
         waiting "https://a/ConnectOriginsToDestinations" "j1" (Some "t0") 0 ++
         [ GetJobStatus "https://a/ConnectOriginsToDestinations" "j1" (Some "t0");
           Sleep 3 ]) ∧
  critical_lines run.2 = [].
Proof.
  cbv zeta.
  apply (calculate_commute_unknown_status (features:=list route_attributes)
           "user" "secret" "https://a/" "j1" "esriJobCancelled" (Some "t0") _
           [] [] None None); try reflexivity; [constructor|].
  by apply (bool_decide_unpack _).
Defined.

Lemma poll_returns_features {features : Type} username password
    (R : @remote features) analysis_url job_id replies n token tr fs tr' :
  poll username password R analysis_url job_id replies n token tr
    = (Returned (Some fs), tr') →
  routes_reply R = Ok (Some fs) ∧
  ∃ p e, Ok (StatusJson (Some "esriJobSucceeded") p e) ∈ replies.
Proof.
  revert n token tr.
  induction replies as [|reply replies IH]; intros n token tr; cbn [poll];
    [done|].
  assert (Hrec : ∀ n token tr,
    poll username password R analysis_url job_id replies n token tr
      = (Returned (Some fs), tr') →
    routes_reply R = Ok (Some fs) ∧
    ∃ p e, Ok (StatusJson (Some "esriJobSucceeded") p e) ∈ reply :: replies).
  { intros n0 token0 tr0 H. destruct (IH _ _ _ H) as (? & p & e & ?).
    split; [done|]. exists p, e. by right. }
  destruct reply as [[js p e]|]; [|done]. cbn [jobStatus routes_paramUrl error].
  destruct js as [job_status|].
  - destruct (decide (job_status = "esriJobSucceeded")) as [->|].
    + destruct p as [routes_url|]; cbn [getitem]; [|done].
      destruct (routes_reply R) as [[fs'|]|]; cbn [mbind result_bind getitem];
        try done.
      intros [= -> _]. split; [done|]. exists (Some routes_url), e. by left.
    + destruct (decide (job_status = "esriJobFailed")); [done|].
      destruct (decide _); [apply Hrec|done].
  - destruct e as [err|]; [|apply Hrec].
    destruct (decide (se_code err = Some 498)); [|done].
    destruct (generate_token username password (token_reply R n)) as [[t|] evs];
      [apply Hrec|done].
Qed.

(** X16.  [calculate_commute] returns features only when a job was
    submitted, some status reply said [esriJobSucceeded], and the features
    are those of the routes reply. *)
Theorem calculate_commute_returns_routes {features : Type}
    (username password analysis_url : string) (token : option string)
    (R : @remote features) (fs : features) (tr : list event) :
  calculate_commute username password R analysis_url token
    = (Returned (Some fs), tr) →
  (∃ job_id, submit_reply R = Ok (SubmitJson (Some job_id))) ∧
  routes_reply R = Ok (Some fs) ∧
  ∃ p e, Ok (StatusJson (Some "esriJobSucceeded") p e) ∈ status_replies R.
Proof.
  unfold calculate_commute.
  destruct (submit_reply R) as [[[job_id|]]|]; [|done..].
  cbn [sj_jobId]. intros H%poll_returns_features.
  split; [by exists job_id|done].
Qed.

(** X16 on a run that succeeds at the first status query. *)
Lemma calculate_commute_returns_routes_witness :
  let R := @Remote (list route_attributes) (Ok (SubmitJson (Some "j1")))
             [Ok (StatusJson (Some "esriJobSucceeded") (Some "routes") None)]
             (λ _, Raise RequestException) (Ok (Some [])) in
  (∃ job_id, submit_reply R = Ok (SubmitJson (Some job_id))) ∧
  routes_reply R = Ok (Some []) ∧
  ∃ p e, Ok (StatusJson (Some "esriJobSucceeded") p e) ∈ status_replies R.
Proof.
  cbv zeta.
  apply (calculate_commute_returns_routes (features:=list route_attributes)
           "user" "secret" "https://a/" (Some "t0") _ []
           [ PostSubmitJob "https://a/ConnectOriginsToDestinations" (Some "t0");
             GetJobStatus "https://a/ConnectOriginsToDestinations" "j1" (Some "t0");
             GetRoutes "https://a/ConnectOriginsToDestinations" "j1" "routes"
               (Some "t0") ]).
  reflexivity.
Defined.

Lemma poll_events_ok {features : Type} username password
    (R : @remote features) analysis_url job_id replies n token tr :
  Forall (event_ok username password analysis_url job_id) tr →
  Forall (event_ok username password analysis_url job_id)
         (poll username password R analysis_url job_id replies n token tr).2.
Proof.
  revert n token tr.
  induction replies as [|reply replies IH]; intros n token tr Htr; cbn [poll];
    [done|].
  assert (Hq : Forall (event_ok username password analysis_url job_id)
                 (tr ++ [GetJobStatus analysis_url job_id token])).
  { apply Forall_app. split; [done|]. by repeat constructor. }
  assert (Hfail : ∀ tr0, Forall (event_ok username password analysis_url job_id) tr0 →
            Forall (event_ok username password analysis_url job_id)
                   (fail (features:=features) tr0).2).
  { intros tr0 H0. unfold fail. cbn. apply Forall_app. split; [done|].
    by repeat constructor. }
  destruct reply as [status|]; [|by apply Hfail].
  destruct (jobStatus status) as [job_status|].
  - destruct (decide (job_status = "esriJobSucceeded")).
    + destruct (getitem "paramUrl" (routes_paramUrl status)) as [routes_url|];
        [|by apply Hfail].
      assert (Forall (event_ok username password analysis_url job_id)
                ((tr ++ [GetJobStatus analysis_url job_id token]) ++
                 [GetRoutes analysis_url job_id routes_url token])).
      { apply Forall_app. split; [done|]. by repeat constructor. }
      destruct (routes_reply R ≫= getitem "features"); [done|by apply Hfail].
    + destruct (decide (job_status = "esriJobFailed")); [by apply Hfail|].
      assert (Forall (event_ok username password analysis_url job_id)
                ((tr ++ [GetJobStatus analysis_url job_id token]) ++ [Sleep 3])).
      { apply Forall_app. split; [done|]. by repeat constructor. }
      destruct (decide _); [by apply IH|done].
  - destruct (error status) as [err|]; [|by apply IH].
    destruct (decide (se_code err = Some 498)); [|by apply Hfail].
    assert (Hevs : Forall (event_ok username password analysis_url job_id)
                     (generate_token username password (token_reply R n)).2).
    { unfold generate_token.
      destruct (token_reply R n) as [[[[code message]|] tok]|]; cbn.
      - destruct code, message; cbn; by repeat constructor.
      - destruct tok; cbn; by repeat constructor.
      - by repeat constructor. }
    destruct (generate_token username password (token_reply R n)) as [[t|] evs];
      cbn [snd] in Hevs.
    + apply IH. apply Forall_app. split; [done|].
      apply Forall_app. split; [done|]. by repeat constructor.
    + apply Hfail. by apply Forall_app.
Qed.

(** X17.  Whatever the replies, every request of a run of
    [calculate_commute] goes to the tool's address; every status query and
    the routes request name the job of the submission; every token request
    carries the user name and password passed in; every pause is of 3. *)
Theorem calculate_commute_requests {features : Type}
    (username password analysis_url job_id : string) (token : option string)
    (R : @remote features) :
  submit_reply R = Ok (SubmitJson (Some job_id)) →
  Forall (event_ok username password
            (analysis_url +:+ "ConnectOriginsToDestinations") job_id)
         (calculate_commute username password R analysis_url token).2.
Proof.
  intros Hsub. unfold calculate_commute. rewrite Hsub. cbn [sj_jobId].
  apply poll_events_ok. by repeat constructor.
Qed.

(** X17 on a run with an expired token. *)
Lemma calculate_commute_requests_witness :
  let R := @Remote (list route_attributes) (Ok (SubmitJson (Some "j1")))
             [ Ok (StatusJson None None (Some (StatusError (Some 498))));
               Ok (StatusJson (Some "esriJobSucceeded") (Some "routes") None) ]
             (λ _, Ok (TokenJson None (Some "t1"))) (Ok (Some [])) in
  Forall (event_ok "user" "secret" "https://a/ConnectOriginsToDestinations" "j1")
         (calculate_commute "user" "secret" R "https://a/" (Some "t0")).2.
Proof.
  cbv zeta.
  apply (calculate_commute_requests (features:=list route_attributes)
           "user" "secret" "https://a/" "j1" (Some "t0")).
  reflexivity.
Defined.

(** * Further properties of [write_output] *)

(** X18.  Every row handed to the writer with the module's [HEADER] has as
    many cells as the header, eight; the last cell is [False] in a route's
    row and [True] in a flagged employee's row. *)
Theorem write_output_row_shape (features : list route_attributes)
    (flagged_employees : list Z) :
  Forall (λ row, length row = length HEADER ∧ length row = 8%nat)
         (write_output features flagged_employees HEADER) ∧
  Forall (λ row, last row = Some (VBool false)) (route_row <$> features) ∧
  Forall (λ row, last row = Some (VBool true)) (flagged_row <$> flagged_employees).
Proof.
  unfold write_output. rewrite output_rows_eq.
  assert (Hrow : ∀ r, length (route_row r) = 8%nat ∧
                      last (route_row r) = Some (VBool false)).
  { intros r. unfold route_row.
    destruct (From_Employee_Address_Type r) as [| |t|];
      [| |destruct (decide (t = WORK_ADDRESS_TYPE))|]; split; reflexivity. }
  split; [|split].
  - constructor; [split; reflexivity|].
    apply Forall_app. split; apply Forall_fmap, Forall_true.
    + intros r. split; by destruct (Hrow r).
    + intros emp. split; reflexivity.
  - apply Forall_fmap, Forall_true. intros r. by destruct (Hrow r).
  - apply Forall_fmap, Forall_true. intros emp. reflexivity.
Qed.

(** X19.  A route whose From address type is WORK or HOME gives the same
    row when it is reported from its other end: the work and home columns do
    not depend on which end the service calls From. *)
Theorem route_row_reverse (r : route_attributes) :
  From_Employee_Address_Type r = VStr WORK_ADDRESS_TYPE ∨
  From_Employee_Address_Type r = VStr HOME_ADDRESS_TYPE →
  route_row (reverse_route r) = route_row r.
Proof.
  unfold route_row, reverse_route. by intros [-> | ->].
Qed.

(** X19 on a route reported from the home end. *)
Lemma route_row_reverse_witness :
  let r := RouteAttributes (VInt 7) (VNum 12.5%Q) (VNum 21%Q)
             (VStr "HOME") (VNum 38.5%Q) (VNum (-121.7)%Q)
             (VNum 38.6%Q) (VNum (-121.5)%Q) in
  route_row (reverse_route r) = route_row r.
Proof.
  cbv zeta. apply route_row_reverse. by right.
Defined.

(** * Properties of [locations_to_feature_collection] *)

Lemma feature_fold_raise locations e :
  fold_left feature_step locations (Raise e) = Raise e.
Proof. induction locations as [|l ls IH]; [done|]. exact IH. Qed.

Lemma feature_fold_ok locations acc fs :
  fold_left feature_step locations (Ok acc) = Ok fs ↔
  ∃ fs', fs = acc ++ fs' ∧
         Forall2 (λ l f, location_feature l = Ok f) locations fs'.
Proof.
  revert acc fs.
  induction locations as [|l ls IH]; intros acc fs; cbn [fold_left].
  - split.
    + intros [= <-]. exists []. by rewrite app_nil_r.
    + intros (fs' & -> & ->%Forall2_nil_inv_l). by rewrite app_nil_r.
  - unfold feature_step at 2. cbn [mbind result_bind].
    destruct (location_feature l) as [f|x] eqn:E; cbn [mbind result_bind].
    + rewrite IH. split.
      * intros (fs' & -> & H). exists (f :: fs').
        split; [by rewrite <- app_assoc|by constructor].
      * intros (fs' & -> & (f' & fs'' & Hf & H & ->)%Forall2_cons_inv_l).
        rewrite E in Hf. injection Hf as <-.
        exists fs''. split; [by rewrite <- app_assoc|done].
    + rewrite feature_fold_raise. split; [done|].
      intros (fs' & _ & (f' & fs'' & Hf & _)%Forall2_cons_inv_l).
      by rewrite E in Hf.
Qed.

(** X20.  When [locations_to_feature_collection] returns, the feature set
    has one feature per location, in order: its x and [Lon] are the
    location's x, its y and [Lat] the location's y, its [employee_number]
    the location's [ResultID], its address type the location's. *)
Theorem feature_collection_features (locations : list location)
    (fc : feature_collection) :
  locations_to_feature_collection locations = Ok fc →
  Forall2 (λ l f,
             l_location l = Some (Lon f, Lat f) ∧ geometry f = (Lon f, Lat f) ∧
             get_ResultID l = Ok (employee_number f) ∧
             get_address_type l = Ok (feature_address_type f))
          locations (fs_features (featureSet fc)).
Proof.
  unfold locations_to_feature_collection.
  destruct (fold_left feature_step locations (Ok [])) as [fs|] eqn:E;
    cbn [mbind result_bind]; [|done].
  intros [= <-]. cbn.
  apply feature_fold_ok in E as (fs' & -> & H). cbn [app].
  eapply Forall2_impl; [exact H|].
  intros l f. unfold location_feature.
  destruct (l_location l) as [[x y]|]; cbn [getitem mbind result_bind]; [|done].
  destruct (get_ResultID l) as [id|]; cbn [mbind result_bind]; [|done].
  destruct (get_address_type l) as [t|]; cbn [mbind result_bind]; [|done].
  by intros [= <-].
Qed.

(** X20 on one location. *)
Lemma feature_collection_features_witness :
  let l := Location (Some (Attributes (Some 7) (Some "WORK")))
             (Some "1 Main St") (Some 100%Q) (Some ((-121.5)%Q, 38.6%Q)) in
  let f := PointFeature ((-121.5)%Q, 38.6%Q) 7 "WORK" 38.6%Q (-121.5)%Q in
  Forall2 (λ l f,
             l_location l = Some (Lon f, Lat f) ∧ geometry f = (Lon f, Lat f) ∧
             get_ResultID l = Ok (employee_number f) ∧
             get_address_type l = Ok (feature_address_type f))
          [l] [f].
Proof.
  cbv zeta.
  apply (feature_collection_features
           [Location (Some (Attributes (Some 7) (Some "WORK")))
              (Some "1 Main St") (Some 100%Q) (Some ((-121.5)%Q, 38.6%Q))]
           (FeatureCollection
              (LayerDefinition "esriGeometryPoint"
                 [ ("employee_number", "esriFieldTypeOID");
                   (EMPLOYEE_ADDRESS_TYPE_FIELD, "esriFieldTypeString");
                   ("Lat", "esriFieldTypeDouble");
                   ("Lon", "esriFieldTypeDouble") ])
              (FeatureSet "esriGeometryPoint" 4326
                 [PointFeature ((-121.5)%Q, 38.6%Q) 7 "WORK" 38.6%Q (-121.5)%Q]))).
  reflexivity.
Defined.

Lemma feature_collection_ok locations :
  Forall (λ l, is_Some (l_location l) ∧ (∃ e, get_ResultID l = Ok e) ∧
               ∃ t, get_address_type l = Ok t) locations →
  ∃ fc, locations_to_feature_collection locations = Ok fc.
Proof.
  intros H. unfold locations_to_feature_collection.
  assert (∃ fs, Forall2 (λ l f, location_feature l = Ok f) locations fs)
    as [fs Hfs].
  { induction H as [|l ls ([[x y] Hp] & [e He] & [t Ht]) _ [fs IH]].
    - exists []. constructor.
    - eexists (_ :: fs). constructor; [|exact IH].
      unfold location_feature. rewrite Hp, He, Ht. reflexivity. }
  assert (fold_left feature_step locations (Ok []) = Ok fs) as ->.
  { apply feature_fold_ok. by exists fs. }
  by eexists.
Qed.

(** X21.  When every result of the input has a point, the two lists
    returned by [match_work_and_home] both go through
    [locations_to_feature_collection], and the two feature sets are
    aligned: the same number of features, and at each index the same
    [employee_number] and different address types. *)
Theorem matched_feature_collections (locations : list location) :
  Forall (λ l, is_Some (l_location l)) locations →
  ∃ origin_fc dest_fc,
    locations_to_feature_collection (match_work_and_home locations).1.1
      = Ok origin_fc ∧
    locations_to_feature_collection (match_work_and_home locations).1.2
      = Ok dest_fc ∧
    Forall2 (λ o d, employee_number o = employee_number d ∧
                    feature_address_type o ≠ feature_address_type d)
            (fs_features (featureSet origin_fc))
            (fs_features (featureSet dest_fc)).
Proof.
  intros Hpts. unfold match_work_and_home. cbv zeta. cbn [fst snd].
  destruct (match_final_inv locations) as [Hp _ _ _ Ho Hd].
  set (O := origins _) in *. set (D := destinations _) in *.
  assert (Hpt : ∀ l, l ∈ locations → is_Some (l_location l)).
  { by apply Forall_forall. }
  destruct (feature_collection_ok O) as [ofc Hofc].
  { apply Forall_forall. intros o Hin.
    split; [apply Hpt; by eapply (proj1 (Forall_forall _ _) Ho)|].
    apply list_elem_of_lookup in Hin as [i Hi].
    destruct (Forall2_lookup_l _ _ _ _ _ Hp Hi)
      as (d & _ & [(e & t & t' & a & a' & ? & _ & ? & _) _]).
    split; by eexists. }
  destruct (feature_collection_ok D) as [dfc Hdfc].
  { apply Forall_forall. intros d Hin.
    split; [apply Hpt; by eapply (proj1 (Forall_forall _ _) Hd)|].
    apply list_elem_of_lookup in Hin as [i Hi].
    destruct (Forall2_lookup_r _ _ _ _ _ Hp Hi)
      as (o & _ & [(e & t & t' & a & a' & _ & ? & _ & ? & _) _]).
    split; by eexists. }
  exists ofc, dfc. split; [done|]. split; [done|].
  pose proof (feature_collection_features _ _ Hofc) as HO.
  pose proof (feature_collection_features _ _ Hdfc) as HD.
  apply Forall2_same_length_lookup_2.
  { rewrite <- (Forall2_length _ _ _ HO), <- (Forall2_length _ _ _ HD).
    by eapply Forall2_length. }
  intros i fo fd Hfo Hfd.
  destruct (Forall2_lookup_r _ _ _ _ _ HO Hfo) as (o & Hio & _ & _ & Hoid & Hot).
  destruct (Forall2_lookup_r _ _ _ _ _ HD Hfd) as (d & Hid & _ & _ & Hdid & Hdt).
  destruct (Forall2_lookup_lr _ _ _ _ _ _ Hp Hio Hid)
    as [(e & t & t' & a & a' & He & He' & Ht & Ht' & Hne & _) _].
  split; [congruence|]. intros Heq. apply Hne. congruence.
Qed.

(** X21 on a pool with one complete pair. *)
Lemma matched_feature_collections_witness :
  let locations := [ tagged 7 "HOME" "12 Elm St" 100%Q;
                     tagged 7 "WORK" "1 Main St" 100%Q ] in
  ∃ origin_fc dest_fc,
    locations_to_feature_collection (match_work_and_home locations).1.1
      = Ok origin_fc ∧
    locations_to_feature_collection (match_work_and_home locations).1.2
      = Ok dest_fc ∧
    Forall2 (λ o d, employee_number o = employee_number d ∧
                    feature_address_type o ≠ feature_address_type d)
            (fs_features (featureSet origin_fc))
            (fs_features (featureSet dest_fc)).
Proof.
  cbv zeta. apply matched_feature_collections.
  repeat constructor; by eexists.
Defined.

(** * Properties of [get_travel_mode] *)

Lemma supported_travel_modes_some rs r :
  supported_travel_modes rs = Ok (Some r) →
  r ∈ rs ∧ paramName r = Some "supportedTravelModes".
Proof.
  induction rs as [|r' rs IH]; cbn [supported_travel_modes]; [done|].
  destruct (paramName r') as [name|] eqn:E; cbn [getitem mbind result_bind];
    [|done].
  destruct (decide (name = "supportedTravelModes")) as [->|_].
  - intros [= <-]. split; [by left|done].
  - intros H. destruct (IH H). split; [by right|done].
Qed.

Lemma named_travel_mode_some fs name tm :
  named_travel_mode fs name = Ok (Some tm) →
  ∃ f a, f ∈ fs ∧ mf_attributes f = Some a ∧
         ma_Name a = Some name ∧ ma_TravelMode a = Some tm.
Proof.
  induction fs as [|f fs IH]; cbn [named_travel_mode]; [done|].
  destruct (mf_attributes f) as [a|] eqn:Ea; cbn [getitem mbind result_bind];
    [|done].
  destruct (ma_Name a) as [n|] eqn:En; cbn [getitem mbind result_bind];
    [|done].
  destruct (decide (n = name)) as [->|_].
  - destruct (ma_TravelMode a) as [tm'|] eqn:Et;
      cbn [getitem mbind result_bind]; [|done].
    intros [= <-]. exists f, a. split; [by left|done].
  - intros H. destruct (IH H) as (f' & a' & ? & ?).
    exists f', a'. split; [by right|done].
Qed.

(** X22.  A travel mode returned by [get_travel_mode] is the
    ["TravelMode"] of a mode with the name asked for, listed under a result
    named ["supportedTravelModes"] of the reply. *)
Theorem get_travel_mode_sound (travel_mode_name : string)
    (reply : result travel_json) (tm : string) :
  get_travel_mode travel_mode_name reply = Ok (Some tm) →
  ∃ rs r fs f a,
    reply = Ok (TravelJson (Some rs)) ∧ r ∈ rs ∧
    paramName r = Some "supportedTravelModes" ∧
    value_features r = Some fs ∧ f ∈ fs ∧ mf_attributes f = Some a ∧
    ma_Name a = Some travel_mode_name ∧ ma_TravelMode a = Some tm.
Proof.
  unfold get_travel_mode. destruct reply as [[[rs|]]|]; [|done..].
  cbn [results getitem mbind result_bind].
  destruct (supported_travel_modes rs) as [[r|]|] eqn:Er;
    cbn [mbind result_bind]; [|done..].
  apply supported_travel_modes_some in Er as [Hin Hname].
  destruct (value_features r) as [fs|] eqn:Ef; cbn [getitem mbind result_bind];
    [|done].
  intros (f & a & ? & ? & ? & ?)%named_travel_mode_some.
  by exists rs, r, fs, f, a.
Qed.

(** X22 on the reply of the sample world. *)
Lemma get_travel_mode_sound_witness :
  ∃ rs r fs f a,
    travel_reply (sample_world sample_geocoded) = Ok (TravelJson (Some rs)) ∧
    r ∈ rs ∧ paramName r = Some "supportedTravelModes" ∧
    value_features r = Some fs ∧ f ∈ fs ∧ mf_attributes f = Some a ∧
    ma_Name a = Some "Driving Distance" ∧ ma_TravelMode a = Some "{drive}".
Proof.
  apply (get_travel_mode_sound "Driving Distance"
           (travel_reply (sample_world sample_geocoded)) "{drive}").
  reflexivity.
Defined.

(** * Properties of [main] *)

Lemma geocode_all_fails replies records_list i acc k :
  (k < length records_list)%nat →
  (∀ j, (j < k)%nat → ∃ ls, geocode_addresses (replies (i + j)%nat) = Ok (Some ls)) →
  geocode_addresses (replies (i + k)%nat) = Ok None →
  geocode_all replies records_list i acc = Raise TypeError.
Proof.
  revert i acc k.
  induction records_list as [|records rest IH]; intros i acc k Hk Hbefore Hnone;
    cbn [length] in Hk; [lia|].
  cbn [geocode_all]. destruct k as [|k].
  - rewrite Nat.add_0_r in Hnone. by rewrite Hnone.
  - destruct (Hbefore 0%nat) as [ls Hls]; [lia|].
    rewrite Nat.add_0_r in Hls. rewrite Hls. cbn [mbind result_bind].
    apply (IH (S i) _ k); [lia| |].
    + intros j Hj. destruct (Hbefore (S j)) as [ls' Hls']; [lia|].
      exists ls'. by replace (S i + j)%nat with (i + S j)%nat by lia.
    + by replace (S i + k)%nat with (i + S k)%nat by lia.
Qed.

(** X23.  When the run has a configuration, a roster and a token, and the
    geocoder gives nothing for one employee (the request raises, or the
    reply has no locations) after giving a list for each employee before,
    [main] ends in a [TypeError]: nothing is written, also for the other
    employees. *)
Theorem main_geocode_failure (w : world) (cfg : gmap string string)
    (c : config) (rows : list (gmap string cell)) (token : option string)
    (k : nat) :
  config_file w = Ok cfg → cfg ≠ ∅ → config_values_of cfg = Ok c →
  csv_file w (worker_info_csv c) = Ok rows →
  (generate_token (cfg_username c)
     (keyring_password w (profile c) (cfg_username c)) (login_reply w)).1
    = Ok token →
  (k < length (read_worker_info rows (cfg_fields c)))%nat →
  (∀ j, (j < k)%nat → ∃ ls, geocode_addresses (geocode_reply w j) = Ok (Some ls)) →
  geocode_addresses (geocode_reply w k) = Ok None →
  main w = Raise TypeError.
Proof.
  intros Hcfg Hne Hc Hcsv Htok Hk Hbefore Hnone.
  unfold main. rewrite Hcfg. cbn [read_config].
  destruct (decide (cfg = ∅)); [done|]. rewrite Hc, Hcsv.
  cbn [mbind result_bind].
  destruct (read_worker_info rows (cfg_fields c)) as [|records rest] eqn:E;
    [cbn in Hk; lia|].
  rewrite Htok. cbn [mbind result_bind].
  by rewrite (geocode_all_fails _ _ 0 [] k Hk Hbefore Hnone).
Qed.

(** X23 in the sample world with a geocoder that cannot be reached. *)
Lemma main_geocode_failure_witness :
  main (sample_world (Raise RequestException)) = Raise TypeError.
Proof.
  apply (main_geocode_failure (sample_world (Raise RequestException))
           sample_config
           (Config "info" "agol" "user" "workers.csv" sample_fields "out.csv")
           [sample_worker 1] (Some "t0") 0).
  - reflexivity.
  - intros H. apply (f_equal (λ m : gmap string string, m !! "profile")) in H.
    by vm_compute in H.
  - by vm_compute.
  - reflexivity.
  - reflexivity.
  - vm_compute. lia.
  - intros j Hj. lia.
  - reflexivity.
Defined.

(** X24.  When [main] writes, it writes to the file named by ["csv_out"];
    the rows are the header, then one row per route feature returned by
    [calculate_commute], of which there is at least one, then one row per
    employee flagged by [match_work_and_home] on the pooled locations.  The
    pooled locations are those the geocoding loop gathers for the requests
    that [read_worker_info] builds from the roster named in the
    configuration; the token handed to [calculate_commute] is the one
    [generate_token] returned at the start, and the address is the one
    [get_analysis_url] returned. *)
Theorem main_output (w : world) (file : string) (rows : list (list value)) :
  main w = Ok (Returned (Some (file, rows))) →
  ∃ cfg c worker_info token locations analysis_url features,
    config_file w = Ok cfg ∧ config_values_of cfg = Ok c ∧ file = csv_out c ∧
    csv_file w (worker_info_csv c) = Ok worker_info ∧
    (generate_token (cfg_username c)
       (keyring_password w (profile c) (cfg_username c)) (login_reply w)).1
      = Ok token ∧
    geocode_all (geocode_reply w)
      (read_worker_info worker_info (cfg_fields c)) 0 [] = Ok locations ∧
    get_analysis_url (portal_reply w) = Some analysis_url ∧
    (calculate_commute (cfg_username c)
       (keyring_password w (profile c) (cfg_username c)) (analysis w)
       analysis_url token).1
      = Returned (Some features) ∧
    features ≠ [] ∧
    rows = (VStr <$> HEADER) ::
           (route_row <$> features) ++
           (flagged_row <$> (match_work_and_home locations).2).
Proof.
  unfold main. destruct (config_file w) as [cfg|] eqn:Hcfg; [|done].
  cbn [read_config]. destruct (decide (cfg = ∅)); [done|].
  destruct (config_values_of cfg) as [c|] eqn:Hc; [|done].
  destruct (csv_file w (worker_info_csv c)) as [worker_info|] eqn:Hcsv;
    cbn [mbind result_bind]; [|done].
  destruct (read_worker_info worker_info (cfg_fields c)) as [|records rest]
    eqn:Hrecords; [done|].
  destruct (generate_token _ _ _).1 as [token|] eqn:Htok;
    cbn [mbind result_bind]; [|done].
  destruct (geocode_all _ _ _ _) as [[|l locations]|] eqn:Hgeo;
    cbn [mbind result_bind]; [done| |done].
  unfold main_from_locations.
  destruct (match_work_and_home (l :: locations))
    as [[origins destinations] flagged] eqn:Hm.
  destruct (locations_to_feature_collection origins);
    cbn [mbind result_bind]; [|done].
  destruct (locations_to_feature_collection destinations);
    cbn [mbind result_bind]; [|done].
  destruct (get_analysis_url (portal_reply w)) as [analysis_url|] eqn:Hurl;
    [|done].
  destruct (get_travel_mode _ _) as [[travel_mode|]|];
    cbn [mbind result_bind]; [|done..].
  destruct (decide (travel_mode = "")); [done|].
  destruct (calculate_commute _ _ _ _ _).1 as [[[|f features]|]|] eqn:Hrun;
    [done| |done..].
  intros [= <- <-].
  exists cfg, c, worker_info, token, (l :: locations), analysis_url,
         (f :: features).
  rewrite Hrecords.
  split; [done|]. split; [done|]. split; [done|]. split; [done|].
  split; [done|]. split; [done|]. split; [done|]. split; [done|].
  split; [done|].
  unfold write_output. rewrite output_rows_eq. by rewrite Hm.
Qed.

(** X24 in the sample world. *)
Lemma main_output_witness :
  ∃ cfg c worker_info token locations analysis_url features,
    config_file (sample_world sample_geocoded) = Ok cfg ∧
    config_values_of cfg = Ok c ∧ "out.csv" = csv_out c ∧
    csv_file (sample_world sample_geocoded) (worker_info_csv c)
      = Ok worker_info ∧
    (generate_token (cfg_username c)
       (keyring_password (sample_world sample_geocoded) (profile c) (cfg_username c))
       (login_reply (sample_world sample_geocoded))).1
      = Ok token ∧
    geocode_all (geocode_reply (sample_world sample_geocoded))
      (read_worker_info worker_info (cfg_fields c)) 0 [] = Ok locations ∧
    get_analysis_url (portal_reply (sample_world sample_geocoded))
      = Some analysis_url ∧
    (calculate_commute (cfg_username c)
       (keyring_password (sample_world sample_geocoded) (profile c) (cfg_username c))
       (analysis (sample_world sample_geocoded))
       analysis_url token).1
      = Returned (Some features) ∧
    features ≠ [] ∧
    [VStr <$> HEADER; route_row sample_route] =
      (VStr <$> HEADER) ::
      (route_row <$> features) ++
      (flagged_row <$> (match_work_and_home locations).2).
Proof.
  apply (main_output (sample_world sample_geocoded) "out.csv"
           [VStr <$> HEADER; route_row sample_route]).
  by vm_compute.
Defined.

(** * Properties of [Logger] *)

(** X25.  From the level [INFO] the logger starts with, any sequence of
    [setLevel] calls leaves one of the five levels; at each of them a
    critical message is printed, and a debug message is printed only at the
    level [DEBUG]. *)
Theorem logger_levels (upper : string → string) (names : list string) :
  let level := fold_left (λ current name, setLevel upper name current) names INFO in
  level ∈ [DEBUG; INFO; WARN; ERROR; CRITICAL] ∧
  emits CRITICAL level = true ∧
  (emits DEBUG level = true ↔ level = DEBUG).
Proof.
  cbv zeta.
  assert (Hreach : ∀ current, current ∈ [DEBUG; INFO; WARN; ERROR; CRITICAL] →
            fold_left (λ current name, setLevel upper name current) names current
              ∈ [DEBUG; INFO; WARN; ERROR; CRITICAL]).
  { induction names as [|name names IH]; intros current Hc; [done|].
    cbn [fold_left]. apply IH. unfold setLevel.
    repeat (destruct (decide _); [repeat (first [by left | right])|]). done. }
  specialize (Hreach INFO ltac:(right; by left)).
  split; [done|].
  set (level := fold_left _ _ _) in *. clearbody level.
  unfold emits, DEBUG, INFO, WARN, ERROR, CRITICAL in *.
  repeat (apply elem_of_cons in Hreach as [->|Hreach]; [by vm_compute|]).
  by apply elem_of_nil in Hreach.
Qed.

(** *** The run in which every employee is geocoded to a complete pair *)

Lemma valid_candidates_geocoded reply id :
  valid_candidates reply id →
  ∃ o d, geocode_addresses reply = Ok (Some [o; d]) ∧
         paired o d ∧ get_ResultID o = Ok id.
Proof.
  intros (first & second & id1 & id2 & a1 & a2 & s1 & s2 & -> & H1 & H2 & -> &
          Ha1 & Ha2 & Hne & Hs1 & Hs2 & Hz1 & Hz2).
  unfold get_ResultID in H1, H2.
  destruct (l_attributes first) as [at1|] eqn:E1; [|discriminate].
  destruct (l_attributes second) as [at2|] eqn:E2; [|discriminate].
  cbn [mbind result_bind getitem] in H1, H2.
  destruct (ResultID at1) as [i1|] eqn:R1; [|discriminate].
  destruct (ResultID at2) as [i2|] eqn:R2; [|discriminate].
  injection H1 as ->. injection H2 as ->.
  unfold geocode_addresses, assign_address_types.
  cbn [gj_locations length]. destruct (decide (2%nat = 0%nat)); [done|].
  rewrite E1, E2. cbn [mbind result_bind getitem].
  rewrite R1, R2. cbn [mbind result_bind getitem].
  destruct (decide (id1 > id2)); cbn [mbind result_bind];
    eexists _, _; (split; [reflexivity|]).
  - rewrite Z.min_r by lia. split; [split|].
    + exists id2, HOME_ADDRESS_TYPE, WORK_ADDRESS_TYPE, a1, a2.
      unfold get_ResultID, get_address_type, get_address. cbn.
      rewrite R2, Ha1, Ha2. cbn. repeat split; done.
    + exists s1, s2. unfold get_score. cbn. by rewrite Hs1, Hs2.
    + done.
  - rewrite Z.min_l by lia. split; [split|].
    + exists id1, WORK_ADDRESS_TYPE, HOME_ADDRESS_TYPE, a1, a2.
      unfold get_ResultID, get_address_type, get_address. cbn.
      rewrite R1, Ha1, Ha2. cbn. repeat split; done.
    + exists s1, s2. unfold get_score. cbn. by rewrite Hs1, Hs2.
    + unfold get_ResultID. cbn. by rewrite R1.
Qed.

Lemma geocode_all_pairs replies records_list i acc ids :
  Forall2 (λ j id, valid_candidates (replies j) id)
          (seq i (length records_list)) ids →
  ∃ pairs, geocode_all replies records_list i acc = Ok (acc ++ interleave pairs) ∧
           Forall (λ p, paired p.1 p.2) pairs ∧
           employee_ids pairs.*1 = ids.
Proof.
  revert i acc ids.
  induction records_list as [|records rest IH]; intros i acc ids H;
    cbn [length seq] in H.
  - apply Forall2_nil_inv_l in H as ->. exists [].
    split; [by rewrite app_nil_r|]. by split; [constructor|].
  - apply Forall2_cons_inv_l in H as (id & ids' & Hv & Hrest & ->).
    destruct (valid_candidates_geocoded _ _ Hv) as (o & d & Hg & Hp & Hid).
    destruct (IH (S i) (acc ++ [o; d]) ids' Hrest) as (pairs & Hall & Hps & Hids).
    exists ((o, d) :: pairs). cbn [geocode_all]. rewrite Hg.
    cbn [mbind result_bind]. rewrite Hall, interleave_cons. cbn [fst snd].
    split; [by rewrite <- app_assoc|]. split; [by constructor|].
    rewrite fmap_cons. cbn [fst]. by rewrite (employee_ids_cons _ _ id Hid), Hids.
Qed.

(** X26.  When every employee's geocode request is answered with two
    candidates that have readable identifiers, different addresses and
    scores other than 0, and the smaller identifiers are pairwise distinct,
    nobody is flagged: if [main] writes, the rows are the header and one row
    per route feature. *)
Theorem main_nobody_flagged (w : world) (cfg : gmap string string) (c : config)
    (worker_info : list (gmap string cell)) (ids : list Z)
    (file : string) (rows : list (list value)) :
  config_file w = Ok cfg → config_values_of cfg = Ok c →
  csv_file w (worker_info_csv c) = Ok worker_info →
  Forall2 (λ j id, valid_candidates (geocode_reply w j) id)
          (seq 0 (length (read_worker_info worker_info (cfg_fields c)))) ids →
  NoDup ids →
  main w = Ok (Returned (Some (file, rows))) →
  ∃ features, features ≠ [] ∧ rows = (VStr <$> HEADER) :: (route_row <$> features).
Proof.
  intros Hcfg Hc Hcsv Hvalid Hnd. unfold main. rewrite Hcfg. cbn [read_config].
  destruct (decide (cfg = ∅)); [done|]. rewrite Hc, Hcsv.
  cbn [mbind result_bind].
  destruct (geocode_all_pairs (geocode_reply w) _ 0 [] ids Hvalid)
    as (pairs & Hall & Hps & Hids).
  destruct (read_worker_info worker_info (cfg_fields c)) as [|records rest];
    [done|].
  destruct (generate_token _ _ _).1 as [token|]; cbn [mbind result_bind];
    [|done].
  rewrite Hall. cbn [app mbind result_bind].
  destruct (interleave pairs) as [|l locations] eqn:Hpool; [done|].
  unfold main_from_locations. rewrite <- Hpool.
  assert (match_work_and_home (interleave pairs) = (pairs.*1, pairs.*2, []))
    as ->.
  { unfold match_work_and_home, match_loop. cbv zeta.
    rewrite <- Hids in Hnd.
    pose proof (match_interleaved_loop [] pairs (Forall_nil_2 _) Hps Hnd) as H.
    cbn [app] in H. cbn [fmap list_fmap employee_ids omap list_omap] in H.
    unfold match_init. by rewrite H. }
  destruct (locations_to_feature_collection pairs.*1);
    cbn [mbind result_bind]; [|done].
  destruct (locations_to_feature_collection pairs.*2);
    cbn [mbind result_bind]; [|done].
  destruct (get_analysis_url (portal_reply w)) as [analysis_url|]; [|done].
  destruct (get_travel_mode _ _) as [[travel_mode|]|];
    cbn [mbind result_bind]; [|done..].
  destruct (decide (travel_mode = "")); [done|].
  destruct (calculate_commute _ _ _ _ _).1 as [[[|f features]|]|];
    [done| |done..].
  intros [= <- <-]. exists (f :: features). split; [done|].
  unfold write_output. rewrite output_rows_eq. by rewrite app_nil_r.
Qed.

(** X26 in the sample world. *)
Lemma main_nobody_flagged_witness :
  ∃ features,
    features ≠ [] ∧
    [VStr <$> HEADER; route_row sample_route] =
      (VStr <$> HEADER) :: (route_row <$> features).
Proof.
  apply (main_nobody_flagged (sample_world sample_geocoded) sample_config
           (Config "info" "agol" "user" "workers.csv" sample_fields "out.csv")
           [sample_worker 1] [1] "out.csv"
           [VStr <$> HEADER; route_row sample_route]).
  - reflexivity.
  - by vm_compute.
  - reflexivity.
  - cbn [cfg_fields].
    assert (length (read_worker_info [sample_worker 1] sample_fields) = 1%nat)
      as -> by (by vm_compute).
    repeat constructor.
    exists (untagged 2 "12 Elm St" 90%Q), (untagged 1 "1 Main St" 100%Q),
           2, 1, "12 Elm St", "1 Main St", 90%Q, 100%Q.
    repeat split; done.
  - apply NoDup_singleton.
  - by vm_compute.
Defined.

Lemma geocode_addresses_nonempty reply ls :
  geocode_addresses reply = Ok (Some ls) → ls ≠ [].
Proof.
  destruct reply as [[[locations|]]|x]; cbn [geocode_addresses gj_locations];
    [|done..].
  destruct (decide _) as [|Hlen]; [done|].
  destruct locations as [|first [|second [|third rest]]]; [done| | |];
    try (by intros [= <-]).
  destruct (assign_address_types first second) as [[first' second']|];
    cbn [mbind result_bind]; [|done].
  by intros [= <-].
Qed.

(** X27.  When the roster gives at least one request and the geocoding
    loop of [main] finishes without an exception, the pooled list of
    locations is not empty: the test [if not locations] that follows the
    loop never stops a run. *)
Theorem geocode_all_nonempty (replies : nat → result geocode_json)
    (records_list : list (list address_record)) (locations : list location) :
  records_list ≠ [] →
  geocode_all replies records_list 0 [] = Ok locations →
  locations ≠ [].
Proof.
  assert (Hgen : ∀ rl i acc ls, acc ≠ [] →
            geocode_all replies rl i acc = Ok ls → ls ≠ []).
  { induction rl as [|records rest IH]; intros i acc ls Hacc; cbn [geocode_all].
    - by intros [= <-].
    - destruct (geocode_addresses (replies i)) as [[got|]|];
        cbn [mbind result_bind]; [|done..].
      apply IH. by destruct acc. }
  destruct records_list as [|records rest]; [done|]. intros _.
  cbn [geocode_all].
  destruct (geocode_addresses (replies 0%nat)) as [[got|]|] eqn:E;
    cbn [mbind result_bind]; [|done..].
  apply Hgen. cbn [app]. by eapply geocode_addresses_nonempty.
Qed.

(** X27 with the request of the sample roster. *)
Lemma geocode_all_nonempty_witness :
  [ set_attributes (Attributes (Some 1) (Some "HOME")) (untagged 2 "12 Elm St" 90%Q);
    set_attributes (Attributes (Some 1) (Some "WORK")) (untagged 1 "1 Main St" 100%Q) ]
  ≠ [].
Proof.
  apply (geocode_all_nonempty (λ _, sample_geocoded)
           (read_worker_info [sample_worker 1] sample_fields)).
  - by vm_compute.
  - by vm_compute.
Defined.
